(** * AtmosHekateMonitor: the release-tracking core of [AtmosHekateMolnitor.py]

    A shallow embedding of the configuration store ([load_config],
    [save_config]), the release client ([fetch_latest_release]) and the
    [MainWindow] handlers that drive a check, together with the properties
    the specification states about them.

    Conventions of the embedding:
    - a Python value read from JSON is a [pyval]; a [dict] is a [gmap] keyed
      by strings (insertion order is not observable by the modelled code);
    - a Python [str] is a [string] whose characters stand for code points
      below 256;
    - a call that may raise returns a [res]; an exception that leaves a Qt
      slot ends the program, so a handler that raises has no successor state;
    - the wire formats (the text of the configuration file, the payload of an
      HTTP response) are only ever handed to the [json] codec, which is an
      interface ([PyLib]) of the embedding. *)

From Stdlib Require Import ZArith String Ascii List.
From Stdlib Require Import Floats.SpecFloat.
From stdpp Require Import base option gmap strings list fin_maps.

#[local] Set Warnings "-register-all".
#[local] Open Scope string_scope.

(** ** Python values and exceptions *)

Inductive pyval : Type :=
  | PNone
  | PBool (b : bool)
  | PInt (n : Z)
  | PFloat (f : spec_float)        (* a binary64 number *)
  | PStr (s : string)
  | PList (l : list pyval)
  | PDict (d : gmap string pyval).

(** The exception classes the modelled code can meet.  [HTTPError] is a
    subclass of [URLError]; every class here is a subclass of [Exception]. *)
Inductive exc_class : Type :=
  | URLError
  | HTTPError
  | TimeoutError
  | ConnectionResetError
  | OSError
  | UnicodeDecodeError
  | JSONDecodeError
  | AttributeError
  | TypeError
  | KeyError
  | RuntimeError.

(** An exception object: its class and the text [str(e)] gives. *)
Record pyexc : Type := PyExc { exc_cls : exc_class; exc_str : string }.

Inductive res (A : Type) : Type :=
  | Ok (a : A)
  | Raise (e : pyexc).
Arguments Ok {A} a.
Arguments Raise {A} e.

#[global] Instance res_ret : MRet res := fun A a => Ok a.
#[global] Instance res_bind : MBind res := fun A B f m =>
  match m with
  | Ok a => f a
  | Raise e => Raise e
  end.

Definition raise {A : Type} (c : exc_class) (msg : string) : res A :=
  Raise (PyExc c msg).

(** [isinstance(e, urllib.error.URLError)] *)
Definition isinstance_URLError (e : pyexc) : bool :=
  match exc_cls e with
  | URLError | HTTPError => true
  | _ => false
  end.

(** ** Strings *)

Definition nl : string := String "010"%char EmptyString.

Fixpoint repeat_string (s : string) (n : nat) : string :=
  match n with
  | O => ""
  | S n' => s +:+ repeat_string s n'
  end.

(** ["\n".join(lines)] *)
Fixpoint join_lines (lines : list string) : string :=
  match lines with
  | [] => ""
  | [l] => l
  | l :: ls => l +:+ nl +:+ join_lines ls
  end.

(** [needle in hay] on two strings. *)
Fixpoint str_contains (needle hay : string) : bool :=
  String.prefix needle hay ||
  match hay with
  | EmptyString => false
  | String _ hay' => str_contains needle hay'
  end.

(** [str.isspace] on the code points below 256: TAB..CR, FS..US, space,
    NEL and NBSP. *)
Definition isspace (c : ascii) : bool :=
  let n := N_of_ascii c in
  ((9 <=? n) && (n <=? 13) || (28 <=? n) && (n <=? 32) ||
   (n =? 133) || (n =? 160))%N.

Fixpoint lstrip (s : string) : string :=
  match s with
  | EmptyString => ""
  | String c s' => if isspace c then lstrip s' else s
  end.

Fixpoint rstrip (s : string) : string :=
  match s with
  | EmptyString => ""
  | String c s' =>
      match rstrip s' with
      | EmptyString => if isspace c then "" else String c ""
      | r => String c r
      end
  end.

(** [s.strip()] *)
Definition strip (s : string) : string := rstrip (lstrip s).

(** ** Operations on Python values *)

Definition type_name (v : pyval) : string :=
  match v with
  | PNone => "NoneType"
  | PBool _ => "bool"
  | PInt _ => "int"
  | PFloat _ => "float"
  | PStr _ => "str"
  | PList _ => "list"
  | PDict _ => "dict"
  end.

(** [bool(v)] *)
Definition truthy (v : pyval) : bool :=
  match v with
  | PNone => false
  | PBool b => b
  | PInt n => negb (n =? 0)%Z
  | PFloat (S754_zero _) => false
  | PFloat _ => true
  | PStr s => negb (String.eqb s "")
  | PList l => match l with [] => false | _ => true end
  | PDict d => negb (bool_decide (d = ∅))
  end.

(** [a or b] *)
Definition py_or (a b : pyval) : pyval := if truthy a then a else b.

(** [s or d] on a string [s] *)
Definition str_or (s d : string) : string :=
  if String.eqb s "" then d else s.

(** [elem == PStr k], for the membership test on a list. *)
Definition eq_str (k : string) (v : pyval) : bool :=
  match v with
  | PStr s => String.eqb k s
  | _ => false
  end.

(** [k in v] for a string [k] *)
Definition py_contains (k : string) (v : pyval) : res bool :=
  match v with
  | PDict d => Ok (bool_decide (is_Some (d !! k)))
  | PList l => Ok (existsb (eq_str k) l)
  | PStr s => Ok (str_contains k s)
  | _ => raise TypeError
           ("argument of type '" +:+ type_name v +:+ "' is not iterable")
  end.

(** [v.get(k, default)] *)
Definition py_get (v : pyval) (k : string) (default : pyval) : res pyval :=
  match v with
  | PDict d => Ok (from_option id default (d !! k))
  | _ => raise AttributeError
           ("'" +:+ type_name v +:+ "' object has no attribute 'get'")
  end.

(** [v[k]] for a string [k] *)
Definition py_getitem (v : pyval) (k : string) : res pyval :=
  match v with
  | PDict d =>
      match d !! k with
      | Some x => Ok x
      | None => raise KeyError ("'" +:+ k +:+ "'")
      end
  | PList _ => raise TypeError "list indices must be integers or slices, not str"
  | PStr _ => raise TypeError "string indices must be integers, not 'str'"
  | _ => raise TypeError
           ("'" +:+ type_name v +:+ "' object is not subscriptable")
  end.

(** [v[k] = x] for a string [k]: the container after the assignment. *)
Definition py_setitem (v : pyval) (k : string) (x : pyval) : res pyval :=
  match v with
  | PDict d => Ok (PDict (<[k := x]> d))
  | PList _ => raise TypeError "list indices must be integers or slices, not str"
  | _ => raise TypeError
           ("'" +:+ type_name v +:+ "' object does not support item assignment")
  end.

(** [v.strip()] *)
Definition py_strip (v : pyval) : res string :=
  match v with
  | PStr s => Ok (strip s)
  | _ => raise AttributeError
           ("'" +:+ type_name v +:+ "' object has no attribute 'strip'")
  end.

(** ** Project definitions *)

Record ProjectInfo : Type := {
  key : string;
  api_url : string;
  page_url : string;
  hos_support : string;
}.

Definition PROJECTS : list (string * ProjectInfo) := [
  ("Atmosphere",
   {| key := "atmosphere";
      api_url := "https://api.github.com/repos/Atmosphere-NX/Atmosphere/releases/latest";
      page_url := "https://github.com/Atmosphere-NX/Atmosphere/releases/latest";
      hos_support := "Latest supported HOS: 20.5.0 (Basic support)" |});
  ("Hekate",
   {| key := "hekate";
      api_url := "https://api.github.com/repos/CTCaer/hekate/releases/latest";
      page_url := "https://github.com/CTCaer/hekate/releases/latest";
      hos_support := "Latest supported HOS: 20.5.0" |})
].

(** [PROJECTS[name]] *)
Fixpoint projects_getitem (ps : list (string * ProjectInfo)) (name : string)
  : res ProjectInfo :=
  match ps with
  | [] => raise KeyError ("'" +:+ name +:+ "'")
  | (n, info) :: ps' =>
      if String.eqb n name then Ok info else projects_getitem ps' name
  end.

(** ** The codec interface

    [json.load], [json.dump] and [bytes.decode] belong to the Python
    library.  The code never looks inside the text of the configuration file
    or the payload of a response: it hands them to these three functions. *)

Class PyLib : Type := {
  text : Type;                         (* the text of a file or a payload *)
  raw : Type;                          (* what [resp.read()] returns *)
  json_loads : text -> res pyval;      (* [json.load] / [json.loads] *)
  json_dumps : pyval -> text;          (* [json.dump(..., indent=2)] *)
  decode_utf8 : raw -> res text;       (* [.decode("utf-8")] *)
}.

(** The values the [json] text format carries: every shape of [pyval], with
    integers short enough for the interpreter to print (4300 digits) and
    floats that are binary64 numbers. *)
Inductive json_value : pyval -> Prop :=
  | json_none : json_value PNone
  | json_bool (b : bool) : json_value (PBool b)
  | json_int (n : Z) : (Z.abs n < 10 ^ 4300)%Z -> json_value (PInt n)
  | json_float (f : spec_float) :
      valid_binary 53 1024 f = true -> json_value (PFloat f)
  | json_str (s : string) : json_value (PStr s)
  | json_list (l : list pyval) : Forall json_value l -> json_value (PList l)
  | json_dict (d : gmap string pyval) :
      (forall k v, d !! k = Some v -> json_value v) -> json_value (PDict d).

(** What the library promises: reading back what was dumped gives the value
    that was dumped. *)
Class JsonRoundTrip (L : PyLib) : Prop :=
  loads_dumps : forall v : pyval,
    json_value v -> json_loads (json_dumps v) = Ok v.

(** A codec whose wire format is the value itself, for concrete runs. *)
Definition IdLib : PyLib := {|
  text := pyval;
  raw := pyval;
  json_loads := fun t => Ok t;
  json_dumps := fun v => v;
  decode_utf8 := fun r => Ok r;
|}.

(** ** Release information *)

(** The dict [fetch_latest_release] returns: five keys, all strings. *)
Record ReleaseInfo : Type := {
  tag : string;
  name : string;
  body : string;
  html_url : string;
  published_at : string;
}.

Section Core.

Context {L : PyLib}.

(** ** Config load / save *)

(** The part of the operating system the code touches: [CONFIG_FILE] (absent
    when [None]), whether opening it raises, and what was printed.  Once the
    file is open [json.dump] writes all of a value read from JSON: a write
    that stops half way is not modelled. *)
Record osenv : Type := {
  cfg_file : option text;
  open_read_error : option pyexc;
  open_write_error : option pyexc;
  stdout : list string;
}.

Definition default_config : pyval := PDict {["local_versions" := PDict ∅]}.

(** The body of the [try] of [load_config]. *)
Definition load_config_try (os : osenv) (t : text) : res pyval :=
  match open_read_error os with
  | Some e => Raise e
  | None =>
      data ← json_loads t;
      present ← py_contains "local_versions" data;
      if (present : bool)
      then Ok data
      else py_setitem data "local_versions" (PDict ∅)
  end.

Definition load_config (os : osenv) : pyval :=
  match cfg_file os with
  | None => default_config
  | Some t =>
      match load_config_try os t with
      | Ok data => data
      | Raise _ => default_config
      end
  end.

Definition save_config (os : osenv) (config : pyval) : osenv :=
  match open_write_error os with
  | None =>
      {| cfg_file := Some (json_dumps config);
         open_read_error := open_read_error os;
         open_write_error := open_write_error os;
         stdout := stdout os |}
  | Some e =>
      {| cfg_file := cfg_file os;
         open_read_error := open_read_error os;
         open_write_error := open_write_error os;
         stdout := stdout os ++ ["Error saving config: " +:+ exc_str e] |}
  end.

(** ** GitHub fetcher *)

Record Request : Type := {
  req_url : string;
  req_headers : list (string * string);
}.

(** The network as one request sees it: [urlopen] raises or gives a
    response, whose [read()] raises or gives the payload. *)
Record network : Type := {
  urlopen : Request -> Z -> res (res raw);
}.

(** [(obj.get(field) or "").strip()] *)
Definition get_field (obj : pyval) (field : string) : res string :=
  v ← py_get obj field PNone;
  py_strip (py_or v (PStr "")).

(** The body of the [try] of [fetch_latest_release]. *)
Definition fetch_latest_release_try (net : network) (api_url : string)
  : res ReleaseInfo :=
  let req := {| req_url := api_url;
                req_headers := [("User-Agent", "AtmoHekateChecker/1.0 (Python)")] |} in
  resp ← urlopen net req 10%Z;
  bytes ← resp;
  data ← decode_utf8 bytes;
  obj ← json_loads data;
  tag ← get_field obj "tag_name";
  name ← get_field obj "name";
  body ← get_field obj "body";
  html_url ← get_field obj "html_url";
  published_at ← get_field obj "published_at";
  Ok {| tag := tag; name := name; body := body;
        html_url := html_url; published_at := published_at |}.

Definition fetch_latest_release (net : network) (api_url : string)
  : res ReleaseInfo :=
  match fetch_latest_release_try net api_url with
  | Ok info => Ok info
  | Raise e =>
      if isinstance_URLError e
      then raise RuntimeError ("Network error: " +:+ exc_str e)
      else raise RuntimeError ("Error: " +:+ exc_str e)
  end.

(** What a [ReleaseFetcherThread] emits when [run] returns. *)
Inductive signal : Type :=
  | finished_ok (info : ReleaseInfo)
  | finished_error (msg : string).

(** [ReleaseFetcherThread.run]: [fetch_latest_release] raises nothing but
    [RuntimeError], which [run] turns into [finished_error]. *)
Definition run (net : network) (url : string) : res signal :=
  match fetch_latest_release net url with
  | Ok info => Ok (finished_ok info)
  | Raise e =>
      match exc_cls e with
      | RuntimeError => Ok (finished_error (exc_str e))
      | _ => Raise e
      end
  end.

End Core.

(** ** Main window *)

(** A [QMessageBox] the window has shown.  The information box keeps the
    three values its text is formatted from. *)
Inductive dialog : Type :=
  | information (title project : string) (local : pyval) (latest : string)
  | warning (title message : string)
  | critical (title message : string).

(** The attributes of [MainWindow] the handlers read or write; a label is
    the text it shows, [fetch_thread] is a reference into the threads the
    process has created. *)
Record MainWindow : Type := {
  config : pyval;
  current_project_name : string;
  current_release_info : option ReleaseInfo;
  fetch_thread : option nat;
  local_value : string;
  latest_value : string;
  hos_value : string;
  published_value : string;
  status_value : string;
  changelog_edit : string;
  btn_check_enabled : bool;
  dialogs : list dialog;
}.

Definition set_config (x : pyval) (w : MainWindow) : MainWindow :=
  let (_, b, c, d, e, f, g, h, i, j, k, l) := w in
  Build_MainWindow x b c d e f g h i j k l.
Definition set_current_project_name (x : string) (w : MainWindow) : MainWindow :=
  let (a, _, c, d, e, f, g, h, i, j, k, l) := w in
  Build_MainWindow a x c d e f g h i j k l.
Definition set_current_release_info (x : option ReleaseInfo) (w : MainWindow)
  : MainWindow :=
  let (a, b, _, d, e, f, g, h, i, j, k, l) := w in
  Build_MainWindow a b x d e f g h i j k l.
Definition set_fetch_thread (x : option nat) (w : MainWindow) : MainWindow :=
  let (a, b, c, _, e, f, g, h, i, j, k, l) := w in
  Build_MainWindow a b c x e f g h i j k l.
Definition set_local_value (x : string) (w : MainWindow) : MainWindow :=
  let (a, b, c, d, _, f, g, h, i, j, k, l) := w in
  Build_MainWindow a b c d x f g h i j k l.
Definition set_latest_value (x : string) (w : MainWindow) : MainWindow :=
  let (a, b, c, d, e, _, g, h, i, j, k, l) := w in
  Build_MainWindow a b c d e x g h i j k l.
Definition set_hos_value (x : string) (w : MainWindow) : MainWindow :=
  let (a, b, c, d, e, f, _, h, i, j, k, l) := w in
  Build_MainWindow a b c d e f x h i j k l.
Definition set_published_value (x : string) (w : MainWindow) : MainWindow :=
  let (a, b, c, d, e, f, g, _, i, j, k, l) := w in
  Build_MainWindow a b c d e f g x i j k l.
Definition set_status_value (x : string) (w : MainWindow) : MainWindow :=
  let (a, b, c, d, e, f, g, h, _, j, k, l) := w in
  Build_MainWindow a b c d e f g h x j k l.
Definition set_changelog_text (x : string) (w : MainWindow) : MainWindow :=
  let (a, b, c, d, e, f, g, h, i, _, k, l) := w in
  Build_MainWindow a b c d e f g h i x k l.
Definition set_btn_check_enabled (x : bool) (w : MainWindow) : MainWindow :=
  let (a, b, c, d, e, f, g, h, i, j, _, l) := w in
  Build_MainWindow a b c d e f g h i j x l.
Definition show_dialog (x : dialog) (w : MainWindow) : MainWindow :=
  let (a, b, c, d, e, f, g, h, i, j, k, l) := w in
  Build_MainWindow a b c d e f g h i j k (l ++ [x]).

(** *** Helpers *)

Definition get_current_project_info (w : MainWindow) : res ProjectInfo :=
  projects_getitem PROJECTS (current_project_name w).

Definition get_local_version_for_project (w : MainWindow) (project_key : string)
  : res pyval :=
  lv ← py_get (config w) "local_versions" (PDict ∅);
  py_get lv project_key PNone.

(** [QLabel.setText] accepts a [str] only. *)
Definition setText_arg (v : pyval) : res string :=
  match v with
  | PStr s => Ok s
  | _ => raise TypeError
           ("setText(self, a0: Optional[str]): argument 1 has unexpected type '"
            +:+ type_name v +:+ "'")
  end.

Definition update_local_version_label (w : MainWindow) : res MainWindow :=
  info ← get_current_project_info w;
  let key := key info in
  local ← get_local_version_for_project w key;
  s ← setText_arg (if truthy local then local else PStr "Not set");
  Ok (set_local_value s w).

Definition update_hos_support_label (w : MainWindow) : res MainWindow :=
  info ← get_current_project_info w;
  Ok (set_hos_value (hos_support info) w).

(** *** Events *)

Definition on_project_changed (w : MainWindow) (name : string) : res MainWindow :=
  let w := set_current_project_name name w in
  w ← update_local_version_label w;
  w ← update_hos_support_label w;
  let w := set_latest_value "Unknown" w in
  let w := set_published_value "-" w in
  let w := set_status_value "Idle" w in
  Ok (set_changelog_text "No data for this project yet. Press 'Check Now'." w).

(** [tag != local] for a string [tag] *)
Definition str_ne (tag : string) (local : pyval) : bool :=
  match local with
  | PStr s => negb (String.eqb tag s)
  | _ => true
  end.

Definition nonempty (s : string) : bool := negb (String.eqb s "").

Definition on_fetch_success (w : MainWindow) (rel_info : ReleaseInfo)
  : res MainWindow :=
  let w := set_fetch_thread None w in
  let w := set_current_release_info (Some rel_info) w in
  let tag := str_or (tag rel_info) "Unknown" in
  let name := str_or (name rel_info) "" in
  let published := str_or (published_at rel_info) "-" in
  let body := str_or (body rel_info) "" in
  let w := set_latest_value tag w in
  let w := set_published_value published w in
  let header_lines :=
    ((if nonempty name then ["Release: " +:+ name] else []) ++
     (if nonempty tag then ["Tag: " +:+ tag] else []) ++
     (if nonempty published && negb (String.eqb published "-")
      then ["Published: " +:+ published] else []))%list in
  let header := join_lines header_lines in
  let header :=
    if nonempty header
    then header +:+ nl +:+ nl +:+ repeat_string "-" 60 +:+ nl +:+ nl
    else header in
  let w := set_changelog_text (header +:+ body) w in
  info ← get_current_project_info w;
  let key := key info in
  local ← get_local_version_for_project w key;
  let '(status, w) :=
    if negb (truthy local) then ("Local version not set.", w)
    else if negb (String.eqb tag "Unknown" || String.eqb tag "") then
      if str_ne tag local
      then ("New version available! (" +:+ tag +:+ ")",
            show_dialog (information "New Release Available"
                           (current_project_name w) local tag) w)
      else ("You are up to date.", w)
    else ("Could not determine latest version.", w) in
  let w := set_status_value status w in
  Ok (set_btn_check_enabled true w).

Definition on_fetch_error (w : MainWindow) (msg : string) : MainWindow :=
  let w := set_fetch_thread None w in
  let w := set_latest_value "Error" w in
  let w := set_published_value "-" w in
  let w := set_changelog_text "Error while fetching release info." w in
  let w := set_status_value "Error while checking." w in
  let w := set_btn_check_enabled true w in
  show_dialog (critical "Error" ("Failed to check latest release:" +:+ nl +:+ msg)) w.

(** The attributes as [__init__] and [_build_ui] set them, for a loaded
    configuration. *)
Definition new_window (cfg : pyval) : MainWindow :=
  {| config := cfg;
     current_project_name := "Atmosphere";
     current_release_info := None;
     fetch_thread := None;
     local_value := "Not set";
     latest_value := "Unknown";
     hos_value := "-";
     published_value := "-";
     status_value := "Idle";
     changelog_edit := "No data yet. Press 'Check Now'.";
     btn_check_enabled := true;
     dialogs := [] |}.

Section Window.

Context {L : PyLib}.

Definition set_local_version_for_project (w : MainWindow) (os : osenv)
    (project_key version : string) : res (MainWindow * osenv) :=
  present ← py_contains "local_versions" (config w);
  cfg ← (if (present : bool) then Ok (config w)
         else py_setitem (config w) "local_versions" (PDict ∅));
  lv ← py_getitem cfg "local_versions";
  lv ← py_setitem lv project_key (PStr version);
  cfg ← py_setitem cfg "local_versions" lv;
  Ok (set_config cfg w, save_config os cfg).

Definition set_local_to_latest (w : MainWindow) (os : osenv)
  : res (MainWindow * osenv) :=
  match current_release_info w with
  | None =>
      Ok (show_dialog
            (warning "Warning"
               ("No latest release info yet." +:+ nl +:+ "Press 'Check Now' first."))
            w, os)
  | Some rel_info =>
      let tag := str_or (tag rel_info) "" in
      if negb (nonempty tag) || String.eqb tag "Unknown"
      then Ok (show_dialog
                 (warning "Warning" "Latest version is unknown. Cannot set local.")
                 w, os)
      else
        info ← get_current_project_info w;
        let key := key info in
        '(w, os) ← set_local_version_for_project w os key tag;
        let w := set_local_value tag w in
        Ok (set_status_value "Local version updated." w, os)
  end.

End Window.

(** ** The running program *)

(** A [ReleaseFetcherThread], by what has become of its signal: still inside
    [fetch_latest_release], returned from it with the signal emitted and
    queued for the window, or with the signal delivered to the window. *)
Inductive thread_status : Type :=
  | Running
  | Emitted (s : signal)
  | Delivered.

(** [th_finished]: the thread has ended, so that [isRunning()] is false.  A
    thread ends some time after it has emitted its signal. *)
Record thread : Type := {
  th_api_url : string;
  th_status : thread_status;
  th_finished : bool;
}.

Definition is_fetching (t : thread) : bool :=
  match th_status t with
  | Running => true
  | _ => false
  end.

Definition is_pending (t : thread) : bool :=
  match th_status t with
  | Delivered => false
  | _ => true
  end.

(** [t.isRunning()] for the thread with reference [i] *)
Definition isRunning (ths : list thread) (i : nat) : bool :=
  match ths !! i with
  | Some t => negb (th_finished t)
  | None => false
  end.

Section Program.

Context {L : PyLib}.

(** The window, every thread created so far, and the operating system. *)
Record World : Type := {
  win : MainWindow;
  threads : list thread;
  os : osenv;
}.

Definition start_check (w : World) : res World :=
  if match fetch_thread (win w) with
     | Some i => isRunning (threads w) i
     | None => false
     end
  then Ok w
  else
    info ← get_current_project_info (win w);
    let api_url := api_url info in
    let mw := set_status_value "Checking..." (win w) in
    let mw := set_btn_check_enabled false mw in
    let mw := set_fetch_thread (Some (length (threads w))) mw in
    Ok {| win := mw;
          threads := threads w ++ [{| th_api_url := api_url;
                                       th_status := Running;
                                       th_finished := false |}];
          os := os w |}.

(** [MainWindow.__init__] *)
Definition init (os0 : osenv) : res World :=
  let mw := new_window (load_config os0) in
  mw ← update_local_version_label mw;
  mw ← update_hos_support_label mw;
  start_check {| win := mw; threads := []; os := os0 |}.

(** What can happen next: the user clicks a button or picks another
    project, a worker thread completes its request on some network and
    emits its signal, a worker thread ends, or a queued signal reaches the
    window.  (The two remaining buttons open a browser and close the
    window; neither touches the state modelled here.) *)
Inductive event : Type :=
  | ClickCheck
  | ClickSetLocal
  | SelectProject (name : string)
  | ThreadEmits (i : nat) (net : network)
  | ThreadFinishes (i : nat)
  | SignalDelivered (i : nat).

Definition set_thread_status (ths : list thread) (i : nat) (st : thread_status)
  : list thread :=
  match ths !! i with
  | Some t => <[i := {| th_api_url := th_api_url t;
                        th_status := st;
                        th_finished := th_finished t |}]> ths
  | None => ths
  end.

Definition set_thread_finished (ths : list thread) (i : nat) : list thread :=
  match ths !! i with
  | Some t => <[i := {| th_api_url := th_api_url t;
                        th_status := th_status t;
                        th_finished := true |}]> ths
  | None => ths
  end.

Definition res_to_option {A : Type} (r : res A) : option A :=
  match r with
  | Ok a => Some a
  | Raise _ => None
  end.

(** One event.  A disabled button emits no click; the combo box offers the
    names of [PROJECTS] and signals a change of the current one; a thread
    ends after it has emitted; a handler runs to its end before the next
    event (the message boxes are modal), and one that raises ends the
    program. *)
Definition step (w : World) (e : event) : option World :=
  match e with
  | ClickCheck =>
      if btn_check_enabled (win w) then res_to_option (start_check w) else None
  | ClickSetLocal =>
      '(mw, os') ← res_to_option (set_local_to_latest (win w) (os w));
      Some {| win := mw; threads := threads w; os := os' |}
  | SelectProject name =>
      if existsb (String.eqb name) (PROJECTS.*1)
         && negb (String.eqb name (current_project_name (win w))) then
        mw ← res_to_option (on_project_changed (win w) name);
        Some {| win := mw; threads := threads w; os := os w |}
      else None
  | ThreadEmits i net =>
      match threads w !! i with
      | Some {| th_api_url := url; th_status := Running |} =>
          s ← res_to_option (run net url);
          Some {| win := win w;
                  threads := set_thread_status (threads w) i (Emitted s);
                  os := os w |}
      | _ => None
      end
  | ThreadFinishes i =>
      match threads w !! i with
      | Some {| th_status := Running |} => None
      | Some {| th_finished := false |} =>
          Some {| win := win w;
                  threads := set_thread_finished (threads w) i;
                  os := os w |}
      | _ => None
      end
  | SignalDelivered i =>
      match threads w !! i with
      | Some {| th_status := Emitted s |} =>
          mw ← match s with
               | finished_ok info => res_to_option (on_fetch_success (win w) info)
               | finished_error msg => Some (on_fetch_error (win w) msg)
               end;
          Some {| win := mw;
                  threads := set_thread_status (threads w) i Delivered;
                  os := os w |}
      | _ => None
      end
  end.

(** The states the program can be in, from any state of the operating
    system at start. *)
Inductive reachable : World -> Prop :=
  | reachable_init (os0 : osenv) (w : World) :
      init os0 = Ok w -> reachable w
  | reachable_step (w : World) (e : event) (w' : World) :
      reachable w -> step w e = Some w' -> reachable w'.

(** A run of events from a state. *)
Fixpoint run_events (w : World) (es : list event) : option World :=
  match es with
  | [] => Some w
  | e :: es' => w' ← step w e; run_events w' es'
  end.

(** The checks in flight: threads whose request is under way. *)
Definition in_flight (w : World) : nat :=
  length (List.filter is_fetching (threads w)).

(** The checks the window has not handled yet: in flight, or completed with
    the signal still queued. *)
Definition pending (w : World) : nat :=
  length (List.filter is_pending (threads w)).

End Program.

(** ** The vocabulary of the specification *)

(** The outcome of a completed check. *)
Inductive CheckOutcome : Type :=
  | NoLocalVersion
  | UpToDate
  | UpdateAvailable (latestTag : string)
  | Indeterminate
  | Failed (errorMessage : string).

(** The status line the window shows for each outcome. *)
Definition status_text (o : CheckOutcome) : string :=
  match o with
  | NoLocalVersion => "Local version not set."
  | UpToDate => "You are up to date."
  | UpdateAvailable latestTag => "New version available! (" +:+ latestTag +:+ ")"
  | Indeterminate => "Could not determine latest version."
  | Failed _ => "Error while checking."
  end.

(** The comparison as the specification words it: no entry for the key,
    then an empty tag, then a tag that differs from the stored version. *)
Definition spec_check_outcome (storedLocal : option string) (fetchedTag : string)
  : CheckOutcome :=
  match storedLocal with
  | None => NoLocalVersion
  | Some stored =>
      if String.eqb fetchedTag "" then Indeterminate
      else if negb (String.eqb fetchedTag stored) then UpdateAvailable fetchedTag
      else UpToDate
  end.





(** A configuration holding the given [local_versions] and nothing else. *)
Definition config_of (local_versions : gmap string string) : pyval :=
  PDict {["local_versions" := PDict (PStr <$> local_versions)]}.

(** A release whose only known field is the tag. *)
Definition release_tagged (t : string) : ReleaseInfo :=
  {| tag := t; name := ""; body := ""; html_url := ""; published_at := "" |}.

(** An operating system with the given configuration file and no failing
    call. *)
Definition os_with {L : PyLib} (file : option text) : osenv :=
  {| cfg_file := file; open_read_error := None; open_write_error := None;
     stdout := [] |}.

(** A network that answers every request with the given payload. *)
Definition net_answering {L : PyLib} (payload : raw) : network :=
  {| urlopen := fun _ _ => Ok (Ok payload) |}.


(** The guard of the check, as a property of a state: a thread the window
    has not handled yet is the one [fetch_thread] refers to, the check
    button is then disabled, and a thread whose request is under way has
    not ended. *)
Definition one_check {L : PyLib} (w : World) : Prop :=
  forall (i : nat) (t : thread),
    threads w !! i = Some t ->
    (is_pending t = true ->
     fetch_thread (win w) = Some i /\ btn_check_enabled (win w) = false) /\
    (is_fetching t = true -> th_finished t = false).

(** The [local_versions] mapping of a configuration object: empty when the
    object has none. *)
Definition local_versions_of (m : gmap string pyval) : gmap string pyval :=
  match m !! "local_versions" with
  | Some (PDict lv) => lv
  | _ => ∅
  end.

(** A configuration object as the code expects it: [local_versions], when
    present, is an object. *)
Definition well_formed (m : gmap string pyval) : Prop :=
  match m !! "local_versions" with
  | None => True
  | Some v => exists lv, v = PDict lv
  end.

(** Trimming, without reference to [strip]: [trimmed] is [original] with
    the whitespace at both ends removed. *)
Fixpoint all_space (s : string) : bool :=
  match s with
  | EmptyString => true
  | String c s' => isspace c && all_space s'
  end.

Definition starts_with_space (s : string) : bool :=
  match s with
  | EmptyString => false
  | String c _ => isspace c
  end.

Fixpoint ends_with_space (s : string) : bool :=
  match s with
  | EmptyString => false
  | String c EmptyString => isspace c
  | String _ s' => ends_with_space s'
  end.

Definition is_trim_of (original trimmed : string) : Prop :=
  exists l r : string,
    original = l +:+ trimmed +:+ r /\
    all_space l = true /\ all_space r = true /\
    starts_with_space trimmed = false /\ ends_with_space trimmed = false.




(** The request [fetch_latest_release] sends. *)
Definition request_for (api_url : string) : Request :=
  {| req_url := api_url;
     req_headers := [("User-Agent", "AtmoHekateChecker/1.0 (Python)")] |}.

(** ** The rest of the window *)

(** [MainWindow.open_github_page]: the URL handed to [webbrowser.open]. *)
Definition open_github_page (w : MainWindow) : res string :=
  info ← get_current_project_info w;
  let url := page_url info in
  Ok url.

(** The two labels that follow the selection: the support note of the
    selected project, and its stored local version, shown as
    [update_local_version_label] shows it. *)
Definition labels_in_sync (w : MainWindow) : Prop :=
  exists (info : ProjectInfo) (local : pyval),
    get_current_project_info w = Ok info /\
    hos_value w = hos_support info /\
    get_local_version_for_project w (key info) = Ok local /\
    setText_arg (if truthy local then local else PStr "Not set")
      = Ok (local_value w).

(** A thread fetches the release endpoint of a project of the catalog. *)
Definition catalog_thread (t : thread) : Prop :=
  exists (name : string) (info : ProjectInfo),
    In (name, info) PROJECTS /\ th_api_url t = api_url info.

(** With no thread left to handle the window refers to none and the check
    button is enabled. *)
Definition idle_when_handled {L : PyLib} (w : World) : Prop :=
  (exists (i : nat) (t : thread),
     threads w !! i = Some t /\ is_pending t = true) \/
  (fetch_thread (win w) = None /\ btn_check_enabled (win w) = true).

(** The catalog entry of Atmosphere, and a window in which a release with
    the given tag has been fetched, for concrete runs. *)
Definition atmosphere_info : ProjectInfo :=
  {| key := "atmosphere";
     api_url := "https://api.github.com/repos/Atmosphere-NX/Atmosphere/releases/latest";
     page_url := "https://github.com/Atmosphere-NX/Atmosphere/releases/latest";
     hos_support := "Latest supported HOS: 20.5.0 (Basic support)" |}.

Definition window_with_release (cfg : pyval) (t : string) : MainWindow :=
  set_current_release_info (Some (release_tagged t)) (new_window cfg).

(** The stored local version of a project, as the window may show it:
    nothing that counts as true but a string. *)
Definition showable (v : pyval) : Prop :=
  truthy v = false \/ exists s, v = PStr s.

(** * Properties *)

(** ** Strings and values *)

Lemma bind_Ok {A B : Type} (a : A) (f : A -> res B) : (Ok a ≫= f) = f a.
Proof. reflexivity. Qed.

Lemma bind_Raise {A B : Type} (e : pyexc) (f : A -> res B) :
  (Raise e ≫= f) = Raise e.
Proof. reflexivity. Qed.

Lemma bind_Ok_inv {A B : Type} (m : res A) (f : A -> res B) (b : B) :
  (m ≫= f) = Ok b -> exists a, m = Ok a /\ f a = Ok b.
Proof. destruct m as [a|e]; [eauto | discriminate]. Qed.

Lemma str_or_nonempty (s d : string) : s <> "" -> str_or s d = s.
Proof.
  intros Hs. unfold str_or.
  destruct (String.eqb_spec s ""); [contradiction | reflexivity].
Qed.

Lemma str_or_empty (d : string) : str_or "" d = d.
Proof. reflexivity. Qed.

Lemma str_ne_same (t : string) : str_ne t (PStr t) = false.
Proof. unfold str_ne. by rewrite String.eqb_refl. Qed.

Lemma str_ne_other (t : string) (v : pyval) : v <> PStr t -> str_ne t v = true.
Proof.
  intros Hv. destruct v; try reflexivity. simpl.
  destruct (String.eqb_spec t s); [subst; contradiction | reflexivity].
Qed.





Lemma append_nil_l (b : string) : "" +:+ b = b.
Proof. reflexivity. Qed.

Lemma append_cons (c : ascii) (a b : string) :
  String c a +:+ b = String c (a +:+ b).
Proof. reflexivity. Qed.

Lemma lstrip_all_space (r : string) : all_space r = true -> lstrip r = "".
Proof.
  induction r as [|c r IH]; simpl; [done |].
  intros [Hc Hr]%andb_prop. rewrite Hc. by apply IH.
Qed.

Lemma rstrip_all_space (r : string) : all_space r = true -> rstrip r = "".
Proof.
  induction r as [|c r IH]; simpl; [done |].
  intros [Hc Hr]%andb_prop. by rewrite (IH Hr), Hc.
Qed.

Lemma lstrip_app (l x : string) :
  all_space l = true -> lstrip (l +:+ x) = lstrip x.
Proof.
  induction l as [|c l IH]; [done |]. simpl.
  intros [Hc Hl]%andb_prop. rewrite ?append_cons. simpl. rewrite Hc. by apply IH.
Qed.

Lemma rstrip_app (t r : string) :
  all_space r = true -> rstrip (t +:+ r) = rstrip t.
Proof.
  intros Hr. induction t as [|c t IH].
  - rewrite append_nil_l. by apply rstrip_all_space.
  - rewrite ?append_cons. simpl. by rewrite IH.
Qed.

Lemma rstrip_trimmed (t : string) : ends_with_space t = false -> rstrip t = t.
Proof.
  induction t as [|c t IH]; [done |]. destruct t as [|a t].
  - simpl. by intros ->.
  - intros Hend. change (ends_with_space (String a t) = false) in Hend.
    change (rstrip (String c (String a t)))
      with (match rstrip (String a t) with
            | "" => if isspace c then "" else String c ""
            | r => String c r
            end).
    by rewrite (IH Hend).
Qed.

(** What [is_trim_of] describes is what [strip] computes, and nothing
    else. *)
Lemma is_trim_of_strip (s t : string) : is_trim_of s t -> t = strip s.
Proof.
  intros (l & r & -> & Hl & Hr & Hstart & Hend). unfold strip.
  rewrite (lstrip_app l _ Hl).
  destruct t as [|c t].
  - rewrite append_nil_l, (lstrip_all_space r Hr). reflexivity.
  - simpl in Hstart. rewrite append_cons. simpl lstrip. rewrite Hstart.
    rewrite <- append_cons, (rstrip_app _ r Hr). by rewrite rstrip_trimmed.
Qed.

(** ** The window's attributes under the setters *)

#[local] Arguments projects_getitem : simpl never.
#[local] Arguments py_get : simpl never.
#[local] Arguments py_contains : simpl never.
#[local] Arguments truthy : simpl never.
#[local] Arguments str_or : simpl never.
#[local] Arguments str_ne : simpl never.
#[local] Arguments nonempty : simpl never.
#[local] Arguments join_lines : simpl never.
#[local] Arguments repeat_string : simpl never.
#[local] Arguments String.append : simpl never.
#[local] Arguments String.eqb : simpl never.

Ltac window w := destruct w; simpl in *.

(** Each setter writes the attribute it is named after. *)
Lemma setters_write (w : MainWindow) :
  (forall x, config (set_config x w) = x) /\
  (forall x, current_project_name (set_current_project_name x w) = x) /\
  (forall x, current_release_info (set_current_release_info x w) = x) /\
  (forall x, fetch_thread (set_fetch_thread x w) = x) /\
  (forall x, local_value (set_local_value x w) = x) /\
  (forall x, latest_value (set_latest_value x w) = x) /\
  (forall x, hos_value (set_hos_value x w) = x) /\
  (forall x, published_value (set_published_value x w) = x) /\
  (forall x, status_value (set_status_value x w) = x) /\
  (forall x, changelog_edit (set_changelog_text x w) = x) /\
  (forall x, btn_check_enabled (set_btn_check_enabled x w) = x) /\
  (forall x, dialogs (show_dialog x w) = (dialogs w ++ [x])%list).
Proof. destruct w. repeat split. Qed.

(** A setter leaves the other attributes alone: setting an attribute to the
    value it has gives the window back. *)
Lemma setters_frame (w : MainWindow) :
  set_config (config w) w = w /\
  set_current_project_name (current_project_name w) w = w /\
  set_current_release_info (current_release_info w) w = w /\
  set_fetch_thread (fetch_thread w) w = w /\
  set_local_value (local_value w) w = w /\
  set_latest_value (latest_value w) w = w /\
  set_hos_value (hos_value w) w = w /\
  set_published_value (published_value w) w = w /\
  set_status_value (status_value w) w = w /\
  set_changelog_text (changelog_edit w) w = w /\
  set_btn_check_enabled (btn_check_enabled w) w = w.
Proof. destruct w. repeat split. Qed.

Lemma on_fetch_success_thread (w w' : MainWindow) (rel_info : ReleaseInfo) :
  on_fetch_success w rel_info = Ok w' ->
  fetch_thread w' = None /\ btn_check_enabled w' = true.
Proof.
  unfold on_fetch_success, get_current_project_info, get_local_version_for_project.
  window w.
  destruct (projects_getitem _ _); [rewrite bind_Ok | discriminate].
  destruct (py_get _ _ _ ≫= _); [rewrite bind_Ok | discriminate].
  destruct (negb (truthy _));
    [| destruct (negb (_ || _)); [destruct (str_ne _ _) |]];
    intros [= <-]; done.
Qed.

Lemma on_fetch_success_Ok (w : MainWindow) (rel_info : ReleaseInfo)
    (info : ProjectInfo) (local : pyval) :
  get_current_project_info w = Ok info ->
  get_local_version_for_project w (key info) = Ok local ->
  exists w', on_fetch_success w rel_info = Ok w' /\
    config w' = config w /\
    current_release_info w' = Some rel_info /\
    latest_value w' = str_or (tag rel_info) "Unknown" /\
    status_value w' =
      (if negb (truthy local) then "Local version not set."
       else if negb (String.eqb (str_or (tag rel_info) "Unknown") "Unknown"
                     || String.eqb (str_or (tag rel_info) "Unknown") "")
       then if str_ne (str_or (tag rel_info) "Unknown") local
            then "New version available! ("
                 +:+ str_or (tag rel_info) "Unknown" +:+ ")"
            else "You are up to date."
       else "Could not determine latest version.") /\
    dialogs w' =
      (if truthy local
          && negb (String.eqb (str_or (tag rel_info) "Unknown") "Unknown"
                   || String.eqb (str_or (tag rel_info) "Unknown") "")
          && str_ne (str_or (tag rel_info) "Unknown") local
       then dialogs w ++ [information "New Release Available"
                            (current_project_name w) local
                            (str_or (tag rel_info) "Unknown")]
       else dialogs w)%list.
Proof.
  unfold on_fetch_success, get_current_project_info, get_local_version_for_project.
  window w. intros Hinfo Hlocal.
  rewrite Hinfo, bind_Ok. simpl. rewrite Hlocal, bind_Ok.
  destruct (truthy local); simpl;
    [destruct (negb (_ || _)); simpl; [destruct (str_ne _ _) |] |];
    eexists; (split; [reflexivity |]); simpl; done.
Qed.

(** ** C1: the outcome of a successful fetch *)

(** C1 (as the code has it).  After a successful fetch the status line is
    decided by the stored local version and the fetched tag: a missing or
    falsy (empty) stored value gives [NoLocalVersion]; otherwise an empty tag
    or the tag ["Unknown"] gives [Indeterminate]; otherwise a tag that
    differs from the stored value gives [UpdateAvailable tag], with an
    information box; otherwise [UpToDate]. *)
Theorem on_fetch_success_outcome (w : MainWindow) (rel_info : ReleaseInfo)
    (info : ProjectInfo) (local : pyval) :
  get_current_project_info w = Ok info ->
  get_local_version_for_project w (key info) = Ok local ->
  exists w', on_fetch_success w rel_info = Ok w' /\
    (truthy local = false -> status_value w' = status_text NoLocalVersion) /\
    (truthy local = true -> tag rel_info = "" \/ tag rel_info = "Unknown" ->
       status_value w' = status_text Indeterminate) /\
    (truthy local = true -> tag rel_info <> "" -> tag rel_info <> "Unknown" ->
       local <> PStr (tag rel_info) ->
       status_value w' = status_text (UpdateAvailable (tag rel_info)) /\
       dialogs w' = (dialogs w ++ [information "New Release Available"
                       (current_project_name w) local (tag rel_info)])%list) /\
    (truthy local = true -> tag rel_info <> "" -> tag rel_info <> "Unknown" ->
       local = PStr (tag rel_info) ->
       status_value w' = status_text UpToDate).
Proof.
  intros Hinfo Hlocal.
  destruct (on_fetch_success_Ok w rel_info info local Hinfo Hlocal)
    as (w' & Hw' & _ & _ & _ & Hstatus & Hdialogs).
  exists w'. split; [exact Hw' |].
  rewrite Hstatus, Hdialogs. clear Hw' Hstatus Hdialogs.
  split; [| split; [| split]].
  - intros ->. reflexivity.
  - intros -> [Ht | Ht]; rewrite Ht; reflexivity.
  - intros Ht Hne Hunk Hdiff. rewrite (str_or_nonempty _ _ Hne).
    destruct (String.eqb_spec (tag rel_info) "Unknown"); [contradiction |].
    destruct (String.eqb_spec (tag rel_info) ""); [contradiction |].
    rewrite Ht. simpl. by rewrite (str_ne_other _ _ Hdiff).
  - intros Ht Hne Hunk ->. rewrite (str_or_nonempty _ _ Hne).
    destruct (String.eqb_spec (tag rel_info) "Unknown"); [contradiction |].
    destruct (String.eqb_spec (tag rel_info) ""); [contradiction |].
    rewrite Ht. simpl. by rewrite str_ne_same.
Qed.

Lemma on_fetch_success_outcome_witness :
  exists w',
    on_fetch_success (new_window (config_of {["atmosphere" := "1.1.0"]}))
      (release_tagged "1.2.0") = Ok w' /\
    status_value w' = status_text (UpdateAvailable "1.2.0").
Proof.
  destruct (on_fetch_success_outcome
              (new_window (config_of {["atmosphere" := "1.1.0"]}))
              (release_tagged "1.2.0")
              {| key := "atmosphere";
                 api_url := "https://api.github.com/repos/Atmosphere-NX/Atmosphere/releases/latest";
                 page_url := "https://github.com/Atmosphere-NX/Atmosphere/releases/latest";
                 hos_support := "Latest supported HOS: 20.5.0 (Basic support)" |}
              (PStr "1.1.0"))
    as (w' & Hw' & _ & _ & Hupdate & _).
  - reflexivity.
  - vm_compute. reflexivity.
  - exists w'. split; [exact Hw' |].
    apply Hupdate; [reflexivity | discriminate | discriminate | discriminate].
Defined.

(** C1 (as the specification words it) fails on the code at two inputs: with
    the stored version ["1.1.0"] and the fetched tag ["Unknown"] the code
    reports [Indeterminate] where the wording gives [UpdateAvailable]; with
    an entry holding the empty string and the tag ["1.2.0"] the code reports
    [NoLocalVersion] where the wording gives [UpdateAvailable]. *)
Lemma on_fetch_success_not_spec_outcome :
  let status (stored fetched : string) :=
    status_value <$> res_to_option
      (on_fetch_success (new_window (config_of {["atmosphere" := stored]}))
         (release_tagged fetched)) in
  (status "1.1.0" "Unknown" = Some (status_text Indeterminate) /\
   status "1.1.0" "Unknown"
     <> Some (status_text (spec_check_outcome (Some "1.1.0") "Unknown"))) /\
  (status "" "1.2.0" = Some (status_text NoLocalVersion) /\
   status "" "1.2.0"
     <> Some (status_text (spec_check_outcome (Some "") "1.2.0"))).
Proof. vm_compute. repeat split; discriminate. Qed.

(** The table of the specification holds on the code. *)
Example comparison_table :
  let status (cfg : pyval) (fetched : string) :=
    status_value <$> res_to_option
      (on_fetch_success (new_window cfg) (release_tagged fetched)) in
  status (config_of ∅) "1.2.0" = Some (status_text NoLocalVersion) /\
  status (config_of {["atmosphere" := "1.2.0"]}) "1.2.0"
    = Some (status_text UpToDate) /\
  status (config_of {["atmosphere" := "1.1.0"]}) "1.2.0"
    = Some (status_text (UpdateAvailable "1.2.0")) /\
  status (config_of {["atmosphere" := "1.1.0"]}) ""
    = Some (status_text Indeterminate).
Proof. vm_compute. repeat split. Qed.

(** ** C8: a missing entry and an empty entry *)

Lemma get_local_version_lookup (w : MainWindow) (m lv : gmap string pyval)
    (k : string) :
  config w = PDict m -> m !! "local_versions" = Some (PDict lv) ->
  get_local_version_for_project w k = Ok (from_option id PNone (lv !! k)).
Proof.
  intros Hc Hm. unfold get_local_version_for_project, py_get.
  rewrite Hc, Hm. reflexivity.
Qed.

(** C8 (as the code has it).  The store tells a missing entry ([None]) from
    an entry holding the empty string, but the check does not: after a
    successful fetch both give [NoLocalVersion], and the window differs in
    nothing but the configuration it holds. *)
Theorem empty_local_version_as_missing (w : MainWindow) (rel_info : ReleaseInfo)
    (info : ProjectInfo) (m lv : gmap string pyval) :
  get_current_project_info w = Ok info ->
  config w = PDict m ->
  m !! "local_versions" = Some (PDict lv) ->
  lv !! key info = None ->
  let cfg_empty :=
    PDict (<["local_versions" := PDict (<[key info := PStr ""]> lv)]> m) in
  get_local_version_for_project w (key info) = Ok PNone /\
  get_local_version_for_project (set_config cfg_empty w) (key info)
    = Ok (PStr "") /\
  exists w',
    on_fetch_success w rel_info = Ok w' /\
    on_fetch_success (set_config cfg_empty w) rel_info
      = Ok (set_config cfg_empty w') /\
    status_value w' = status_text NoLocalVersion.
Proof.
  intros Hinfo Hc Hm Hlv cfg_empty.
  assert (Hmissing : get_local_version_for_project w (key info) = Ok PNone).
  { rewrite (get_local_version_lookup w m lv _ Hc Hm), Hlv. reflexivity. }
  assert (Hempty : get_local_version_for_project (set_config cfg_empty w)
                     (key info) = Ok (PStr "")).
  { rewrite (get_local_version_lookup _ (<["local_versions" :=
               PDict (<[key info := PStr ""]> lv)]> m)
               (<[key info := PStr ""]> lv)).
    - by rewrite lookup_insert_eq.
    - by destruct w.
    - by rewrite lookup_insert_eq. }
  split; [exact Hmissing |]. split; [exact Hempty |].
  revert Hinfo Hmissing Hempty.
  unfold on_fetch_success, get_current_project_info,
    get_local_version_for_project.
  generalize cfg_empty. clear. intros cfg_empty.
  window w. intros Hinfo Hmissing Hempty.
  rewrite Hinfo, !bind_Ok. simpl.
  rewrite Hmissing, Hempty, !bind_Ok. simpl.
  eexists. split; [reflexivity |]. split; reflexivity.
Qed.

Lemma empty_local_version_as_missing_witness :
  get_local_version_for_project
    (set_config (PDict (<["local_versions" := PDict {["atmosphere" := PStr ""]}]>
                          {["local_versions" := PDict ∅]}))
       (new_window (config_of ∅))) "atmosphere" = Ok (PStr "") /\
  exists w',
    on_fetch_success (new_window (config_of ∅)) (release_tagged "1.2.0") = Ok w' /\
    status_value w' = status_text NoLocalVersion.
Proof.
  destruct (empty_local_version_as_missing
              (new_window (config_of ∅)) (release_tagged "1.2.0")
              {| key := "atmosphere";
                 api_url := "https://api.github.com/repos/Atmosphere-NX/Atmosphere/releases/latest";
                 page_url := "https://github.com/Atmosphere-NX/Atmosphere/releases/latest";
                 hos_support := "Latest supported HOS: 20.5.0 (Basic support)" |}
              {["local_versions" := PDict ∅]} ∅)
    as (_ & Hempty & w' & Hw' & _ & Hstatus).
  - reflexivity.
  - reflexivity.
  - reflexivity.
  - reflexivity.
  - split; [exact Hempty |]. exists w'. split; [exact Hw' | exact Hstatus].
Defined.

(** C8 (as the specification words it) fails on the code: with the tag
    ["1.2.0"] fetched, a store whose entry is the empty string and a store
    with no entry are told apart by [get_local_version_for_project] and yet
    classified alike, as [NoLocalVersion]. *)
Lemma empty_entry_not_distinguished :
  let w_missing := new_window (config_of ∅) in
  let w_empty := new_window (config_of {["atmosphere" := ""]}) in
  let status (w : MainWindow) :=
    status_value <$> res_to_option (on_fetch_success w (release_tagged "1.2.0")) in
  get_local_version_for_project w_missing "atmosphere" = Ok PNone /\
  get_local_version_for_project w_empty "atmosphere" = Ok (PStr "") /\
  ~ (status w_empty <> status w_missing) /\
  status w_empty = Some (status_text NoLocalVersion).
Proof.
  vm_compute. split; [reflexivity |]. split; [reflexivity |].
  split; [intros H; apply H; reflexivity | reflexivity].
Qed.

(** ** The configuration store *)

Lemma IdLib_round_trip : JsonRoundTrip IdLib.
Proof. intros v _. reflexivity. Qed.

Lemma json_value_empty : json_value (PDict ∅).
Proof. apply json_dict. intros k v Hk. by rewrite lookup_empty in Hk. Qed.

Lemma json_value_insert (m : gmap string pyval) (k : string) (v : pyval) :
  json_value (PDict m) -> json_value v -> json_value (PDict (<[k := v]> m)).
Proof.
  intros Hm Hv. inversion Hm as [| | | | | | d Hd]; subst.
  apply json_dict. intros k' v' Hk'.
  destruct (decide (k = k')) as [-> | Hne].
  - rewrite lookup_insert_eq in Hk'. by injection Hk' as <-.
  - rewrite lookup_insert_ne in Hk' by done. by eapply Hd.
Qed.

Lemma json_value_lookup (m : gmap string pyval) (k : string) (v : pyval) :
  json_value (PDict m) -> m !! k = Some v -> json_value v.
Proof. intros Hm. inversion Hm; subst. eauto. Qed.

Lemma json_value_strings (local_versions : gmap string string) :
  json_value (PDict (PStr <$> local_versions)).
Proof.
  apply json_dict. intros k v Hk. rewrite lookup_fmap in Hk.
  destruct (local_versions !! k); simplify_eq/=. apply json_str.
Qed.

Section Store.

Context {L : PyLib}.

Lemma load_config_missing_file (os : osenv) :
  cfg_file os = None -> load_config os = default_config.
Proof. intros H. unfold load_config. by rewrite H. Qed.

Lemma load_config_unreadable (os : osenv) (e : pyexc) :
  open_read_error os = Some e -> load_config os = default_config.
Proof.
  intros H. unfold load_config, load_config_try. rewrite H.
  by destruct (cfg_file os).
Qed.

Lemma load_config_unparsable (os : osenv) (t : text) (e : pyexc) :
  cfg_file os = Some t -> json_loads t = Raise e ->
  load_config os = default_config.
Proof.
  intros Hf Ht. unfold load_config, load_config_try. rewrite Hf, Ht.
  by destruct (open_read_error os).
Qed.

(** A parsed object comes back as it is, with an empty [local_versions]
    added when it has none. *)
Lemma load_config_dict (os : osenv) (t : text) (m : gmap string pyval) :
  cfg_file os = Some t -> open_read_error os = None ->
  json_loads t = Ok (PDict m) ->
  load_config os =
    PDict (match m !! "local_versions" with
           | Some _ => m
           | None => <["local_versions" := PDict ∅]> m
           end).
Proof.
  intros Hf Hr Ht. unfold load_config, load_config_try.
  rewrite Hf, Hr, Ht, bind_Ok. unfold py_contains. rewrite bind_Ok.
  destruct (m !! "local_versions") as [v|] eqn:Hm.
  - rewrite bool_decide_eq_true_2; [reflexivity | eauto].
  - rewrite bool_decide_eq_false_2; [reflexivity |]. by intros [? ?].
Qed.

(** A parsed value that is no container makes the membership test raise,
    which the handler turns into the default. *)
Lemma load_config_scalar (os : osenv) (t : text) (v : pyval) :
  cfg_file os = Some t -> json_loads t = Ok v ->
  match v with PNone | PBool _ | PInt _ | PFloat _ => True | _ => False end ->
  load_config os = default_config.
Proof.
  intros Hf Ht Hv. unfold load_config, load_config_try. rewrite Hf, Ht.
  destruct (open_read_error os); [reflexivity |].
  by destruct v.
Qed.

Lemma save_config_written (os : osenv) (config : pyval) :
  open_write_error os = None ->
  cfg_file (save_config os config) = Some (json_dumps config) /\
  open_read_error (save_config os config) = open_read_error os /\
  stdout (save_config os config) = stdout os.
Proof. intros H. unfold save_config. by rewrite H. Qed.

Lemma save_config_failed (os : osenv) (config : pyval) (e : pyexc) :
  open_write_error os = Some e ->
  cfg_file (save_config os config) = cfg_file os /\
  stdout (save_config os config)
    = (stdout os ++ ["Error saving config: " +:+ exc_str e])%list.
Proof. intros H. unfold save_config. by rewrite H. Qed.

(** ** C5: round-trip persistence *)

(** Saving and loading any configuration object that holds a
    [local_versions] field. *)
Lemma save_load_config (RT : JsonRoundTrip L) (os : osenv)
    (m : gmap string pyval) :
  open_write_error os = None ->
  open_read_error os = None ->
  json_value (PDict m) ->
  is_Some (m !! "local_versions") ->
  load_config (save_config os (PDict m)) = PDict m.
Proof.
  intros Hw Hr Hjson [v Hm].
  destruct (save_config_written os (PDict m) Hw) as (Hf & Hr' & _).
  rewrite (load_config_dict _ _ m Hf); [by rewrite Hm | congruence |].
  by apply RT.
Qed.

(** C5.  On a file system that lets the file be written and read, and with a
    [json] library that reads back what it dumps, [save_config] of a state
    whose [local_versions] maps strings to strings followed by
    [load_config] gives the state back.  The strings need not be printable,
    and the state may hold other top-level fields. *)
Theorem save_load_round_trip (RT : JsonRoundTrip L) (os : osenv)
    (m : gmap string pyval) (local_versions : gmap string string) :
  open_write_error os = None ->
  open_read_error os = None ->
  m !! "local_versions" = Some (PDict (PStr <$> local_versions)) ->
  (forall field v, field <> "local_versions" -> m !! field = Some v ->
     json_value v) ->
  load_config (save_config os (PDict m)) = PDict m.
Proof.
  intros Hw Hr Hm Hrest. apply save_load_config; try done.
  apply json_dict. intros k v Hk.
  destruct (decide (k = "local_versions")) as [-> | Hne].
  - rewrite Hm in Hk. injection Hk as <-. apply json_value_strings.
  - by eapply Hrest.
Qed.

End Store.

Lemma save_load_round_trip_witness :
  load_config (save_config (os_with (L := IdLib) None)
                 (config_of {["atmosphere" := "1.2.0"]}))
  = config_of {["atmosphere" := "1.2.0"]}.
Proof.
  apply (save_load_round_trip (L := IdLib) IdLib_round_trip
           (os_with (L := IdLib) None) _ {["atmosphere" := "1.2.0"]}).
  - reflexivity.
  - reflexivity.
  - reflexivity.
  - intros field v Hfield Hv. by rewrite lookup_singleton_ne in Hv.
Defined.

(** ** C9 and C10: setting a local version *)

Section SetLocalVersion.

Context {L : PyLib}.

(** What [set_local_version_for_project] leaves in memory. *)
Lemma set_local_version_Ok (w : MainWindow) (os : osenv) (k v : string)
    (m : gmap string pyval) :
  config w = PDict m -> well_formed m ->
  let cfg := PDict (<["local_versions" :=
                      PDict (<[k := PStr v]> (local_versions_of m))]> m) in
  set_local_version_for_project w os k v
    = Ok (set_config cfg w, save_config os cfg).
Proof.
  intros Hc Hwf. unfold set_local_version_for_project, py_contains.
  rewrite Hc, bind_Ok. unfold well_formed, local_versions_of in *.
  destruct (m !! "local_versions") as [x|] eqn:Hm.
  - destruct Hwf as [lv ->].
    rewrite bool_decide_eq_true_2 by eauto. rewrite bind_Ok. simpl.
    rewrite Hm. reflexivity.
  - rewrite bool_decide_eq_false_2 by (by intros [? ?]). simpl.
    rewrite lookup_insert_eq. simpl. by rewrite insert_insert_eq.
Qed.

(** When [local_versions] is present and is no object, the assignment
    raises before anything is saved. *)
Lemma set_local_version_not_an_object (w : MainWindow) (os : osenv)
    (k v : string) (m : gmap string pyval) (x : pyval) :
  config w = PDict m -> m !! "local_versions" = Some x ->
  (forall lv, x <> PDict lv) ->
  exists e, set_local_version_for_project w os k v = Raise e /\
    exc_cls e = TypeError.
Proof.
  intros Hc Hm Hx. unfold set_local_version_for_project, py_contains.
  rewrite Hc, bind_Ok. rewrite bool_decide_eq_true_2 by eauto.
  rewrite bind_Ok. simpl. rewrite Hm, bind_Ok.
  destruct x; simpl; eauto. by destruct (Hx d).
Qed.

(** C9.  Whether the save that [set_local_version_for_project] triggers
    succeeds or fails, the call returns and the configuration in memory
    holds the version under the key: the window after the call does not
    depend on the operating system, and a failed save leaves the file as it
    was and prints the error. *)
Theorem set_local_version_survives_save (w : MainWindow) (k v : string)
    (m : gmap string pyval) :
  config w = PDict m -> well_formed m ->
  exists w',
    get_local_version_for_project w' k = Ok (PStr v) /\
    (forall os : osenv,
       set_local_version_for_project w os k v
         = Ok (w', save_config os (config w'))) /\
    (forall (os : osenv) (e : pyexc),
       open_write_error os = Some e ->
       exists os',
         set_local_version_for_project w os k v = Ok (w', os') /\
         cfg_file os' = cfg_file os /\
         stdout os' = (stdout os ++ ["Error saving config: " +:+ exc_str e])%list).
Proof.
  intros Hc Hwf.
  set (cfg := PDict (<["local_versions" :=
                       PDict (<[k := PStr v]> (local_versions_of m))]> m)).
  assert (Hcfg : config (set_config cfg w) = cfg) by (by destruct w).
  exists (set_config cfg w). split; [| split].
  - rewrite (get_local_version_lookup _ _ (<[k := PStr v]> (local_versions_of m)) k Hcfg).
    + by rewrite lookup_insert_eq.
    + by rewrite lookup_insert_eq.
  - intros os. rewrite Hcfg. by apply set_local_version_Ok.
  - intros os e He. eexists. split; [by apply set_local_version_Ok |].
    by apply save_config_failed.
Qed.

(** What setting a local version changes, and what the save then holds. *)
Lemma set_local_version_changes (RT : JsonRoundTrip L) (w : MainWindow)
    (os : osenv) (k v : string) (m : gmap string pyval) :
  config w = PDict m -> well_formed m ->
  exists (m' : gmap string pyval) (os' : osenv),
    set_local_version_for_project w os k v = Ok (set_config (PDict m') w, os') /\
    (forall f : string, f <> "local_versions" -> m' !! f = m !! f) /\
    (forall k' : string, k' <> k ->
       local_versions_of m' !! k' = local_versions_of m !! k') /\
    local_versions_of m' !! k = Some (PStr v) /\
    (open_write_error os = None ->
       cfg_file os' = Some (json_dumps (PDict m')) /\
       (open_read_error os = None -> json_value (PDict m) ->
        load_config os' = PDict m')).
Proof.
  intros Hc Hwf.
  exists (<["local_versions" := PDict (<[k := PStr v]> (local_versions_of m))]> m).
  eexists. split; [by apply set_local_version_Ok |].
  assert (Hlv : local_versions_of
            (<["local_versions" := PDict (<[k := PStr v]> (local_versions_of m))]> m)
          = <[k := PStr v]> (local_versions_of m)).
  { unfold local_versions_of at 1. by rewrite lookup_insert_eq. }
  split; [| split; [| split; [| ]]].
  - intros f Hf. by rewrite lookup_insert_ne.
  - intros k' Hk'. rewrite Hlv. by rewrite lookup_insert_ne.
  - rewrite Hlv. by rewrite lookup_insert_eq.
  - intros Hw. destruct (save_config_written os
      (PDict (<["local_versions" := PDict (<[k := PStr v]> (local_versions_of m))]> m)) Hw)
      as (Hf & Hr & _).
    split; [exact Hf |]. intros Hread Hjson.
    erewrite load_config_dict; [| exact Hf | congruence | apply RT].
    + by rewrite lookup_insert_eq.
    + apply json_value_insert; [exact Hjson |].
      apply json_value_insert; [| apply json_str].
      unfold local_versions_of.
      destruct (m !! "local_versions") as [[]|] eqn:Hm;
        try apply json_value_empty.
      by eapply json_value_lookup.
Qed.

(** C10.  Setting the local version for a key changes the entry of that key
    in [local_versions] and nothing else: every other top-level field of the
    configuration, every other key of [local_versions] and every other
    attribute of the window are as before; the whole configuration, unknown
    fields included, is what the save writes, and what a later
    [load_config] reads back. *)
Theorem set_local_version_frame (RT : JsonRoundTrip L) (w : MainWindow)
    (os : osenv) (k v : string) (m : gmap string pyval) :
  config w = PDict m -> well_formed m ->
  exists (m' : gmap string pyval) (os' : osenv),
    set_local_version_for_project w os k v = Ok (set_config (PDict m') w, os') /\
    (forall f : string, f <> "local_versions" -> m' !! f = m !! f) /\
    (forall k' : string, k' <> k ->
       local_versions_of m' !! k' = local_versions_of m !! k') /\
    local_versions_of m' !! k = Some (PStr v) /\
    (open_write_error os = None ->
       cfg_file os' = Some (json_dumps (PDict m')) /\
       (open_read_error os = None -> json_value (PDict m) ->
        load_config os' = PDict m')).
Proof. exact (set_local_version_changes RT w os k v m). Qed.

(** The fields of the persisted object reach the window: [load_config]
    changes none of the fields it finds. *)
Lemma load_config_keeps_fields (os : osenv) (t : text) (m : gmap string pyval) :
  cfg_file os = Some t -> open_read_error os = None ->
  json_loads t = Ok (PDict m) ->
  exists m0, load_config os = PDict m0 /\
    forall f v, m !! f = Some v -> m0 !! f = Some v.
Proof.
  intros Hf Hr Ht. rewrite (load_config_dict os t m Hf Hr Ht).
  eexists. split; [reflexivity |]. intros f v Hfv.
  destruct (m !! "local_versions") eqn:Hm; [done |].
  rewrite lookup_insert_ne; [done |]. intros <-. congruence.
Qed.

(** From the file to the file: the fields of the persisted object that the
    program does not know are still there after a version has been set and
    the configuration saved and loaded again. *)
Lemma unknown_fields_survive (RT : JsonRoundTrip L) (w : MainWindow)
    (os : osenv) (t : text) (k v : string) (m : gmap string pyval) :
  cfg_file os = Some t -> open_read_error os = None ->
  open_write_error os = None ->
  json_loads t = Ok (PDict m) -> json_value (PDict m) -> well_formed m ->
  config w = load_config os ->
  exists (m' : gmap string pyval) (w' : MainWindow) (os' : osenv),
    set_local_version_for_project w os k v = Ok (w', os') /\
    config w' = PDict m' /\
    load_config os' = PDict m' /\
    forall f : string, f <> "local_versions" -> m' !! f = m !! f.
Proof.
  intros Hf Hr Hw Ht Hjson Hwf Hc.
  rewrite (load_config_dict os t m Hf Hr Ht) in Hc.
  set (m0 := match m !! "local_versions" with
             | Some _ => m
             | None => <["local_versions" := PDict ∅]> m
             end) in Hc.
  assert (Hm0 : forall f, f <> "local_versions" -> m0 !! f = m !! f).
  { intros f Hne. unfold m0. destruct (m !! "local_versions"); [done |].
    by rewrite lookup_insert_ne. }
  assert (Hwf0 : well_formed m0).
  { unfold m0, well_formed in *. destruct (m !! "local_versions") eqn:Hm.
    - by rewrite Hm.
    - rewrite lookup_insert_eq. eauto. }
  assert (Hjson0 : json_value (PDict m0)).
  { unfold m0. destruct (m !! "local_versions"); [done |].
    apply json_value_insert; [done | apply json_value_empty]. }
  destruct (set_local_version_changes RT w os k v m0 Hc Hwf0)
    as (m' & os' & Hset & Hfields & _ & _ & Hsave).
  exists m', (set_config (PDict m') w), os'.
  split; [exact Hset |]. split; [by destruct w |].
  split; [by apply Hsave |].
  intros f Hne. rewrite (Hfields f Hne). by apply Hm0.
Qed.

End SetLocalVersion.

Lemma set_local_version_survives_save_witness :
  exists w',
    get_local_version_for_project w' "hekate" = Ok (PStr "6.2.0") /\
    forall os : osenv (L := IdLib),
      set_local_version_for_project
        (new_window (config_of {["atmosphere" := "1.7.1"]})) os "hekate" "6.2.0"
      = Ok (w', save_config os (config w')).
Proof.
  destruct (set_local_version_survives_save (L := IdLib)
              (new_window (config_of {["atmosphere" := "1.7.1"]}))
              "hekate" "6.2.0"
              {["local_versions" := PDict (PStr <$> {["atmosphere" := "1.7.1"]})]})
    as (w' & Hget & Hset & _).
  - reflexivity.
  - unfold well_formed. rewrite lookup_singleton_eq. eauto.
  - exists w'. split; [exact Hget | exact Hset].
Defined.

Lemma set_local_version_frame_witness :
  exists (m' : gmap string pyval) (os' : osenv (L := IdLib)),
    set_local_version_for_project
      (new_window (PDict {["theme" := PStr "dark"]}))
      (os_with None) "hekate" "6.2.0"
    = Ok (set_config (PDict m') (new_window (PDict {["theme" := PStr "dark"]})), os') /\
    m' !! "theme" = Some (PStr "dark") /\
    load_config os' = PDict m'.
Proof.
  destruct (set_local_version_frame (L := IdLib) IdLib_round_trip
              (new_window (PDict {["theme" := PStr "dark"]}))
              (os_with None) "hekate" "6.2.0" {["theme" := PStr "dark"]})
    as (m' & os' & Hset & Hfields & _ & _ & Hsave).
  - reflexivity.
  - unfold well_formed. by rewrite lookup_singleton_ne.
  - exists m', os'. split; [exact Hset |]. split.
    + rewrite Hfields; [by rewrite lookup_singleton_eq | discriminate].
    + apply Hsave; [reflexivity | reflexivity |].
      apply json_value_insert; [apply json_value_empty | apply json_str].
Defined.

(** ** The release client *)

Section Client.

Context {L : PyLib}.


(** An exception of [urlopen], of [read()], of the decoding or of the
    parsing is the exception of the [try] block. *)
Lemma fetch_try_sources (net : network) (api_url : string) (e : pyexc) :
  urlopen net (request_for api_url) 10%Z = Raise e \/
  urlopen net (request_for api_url) 10%Z = Ok (Raise e) \/
  (exists payload,
     urlopen net (request_for api_url) 10%Z = Ok (Ok payload) /\
     (decode_utf8 payload = Raise e \/
      exists data, decode_utf8 payload = Ok data /\ json_loads data = Raise e)) ->
  fetch_latest_release_try net api_url = Raise e.
Proof.
  unfold fetch_latest_release_try, request_for.
  intros [H | [H | (payload & H & [Hd | (data & Hd & Hl)])]]; rewrite H; simpl;
    try done; rewrite Hd; simpl; try done; by rewrite Hl.
Qed.

(** ** C6: the two kinds of fetch failure *)


(** ** C7: the fields of a release *)


(** A field that is present and is neither falsy nor a string does abort
    the fetch: it has no [strip]. *)
Lemma get_field_not_a_string (d : gmap string pyval) (field : string) (v : pyval) :
  d !! field = Some v -> truthy v = true ->
  match v with PStr _ => False | _ => True end ->
  get_field (PDict d) field
  = raise AttributeError
      ("'" +:+ type_name v +:+ "' object has no attribute 'strip'").
Proof.
  intros Hd Hv Hs. unfold get_field, py_get, py_or. rewrite Hd, bind_Ok. simpl.
  rewrite Hv. by destruct v.
Qed.

End Client.




(** ** C3: one check at a time *)

Lemma filter_none {A : Type} (p : A -> bool) (l : list A) :
  (forall j y, l !! j = Some y -> p y = false) -> List.filter p l = [].
Proof.
  induction l as [|a l IH]; simpl; intros H; [reflexivity |].
  rewrite (H 0 a eq_refl). apply IH. intros j y Hj. exact (H (S j) y Hj).
Qed.

Lemma filter_at_most_one {A : Type} (p : A -> bool) (l : list A) :
  (forall i j x y, l !! i = Some x -> l !! j = Some y ->
     p x = true -> p y = true -> i = j) ->
  length (List.filter p l) <= 1.
Proof.
  induction l as [|a l IH]; simpl; intros H; [lia |].
  destruct (p a) eqn:Ha.
  - rewrite filter_none; [simpl; lia |]. intros j y Hj.
    destruct (p y) eqn:Hy; [| reflexivity].
    specialize (H 0 (S j) a y eq_refl Hj Ha Hy). discriminate.
  - apply IH. intros i j x y Hi Hj Hx Hy.
    specialize (H (S i) (S j) x y Hi Hj Hx Hy). lia.
Qed.

Lemma filter_some {A : Type} (p : A -> bool) (l : list A) :
  List.filter p l <> [] -> exists i x, l !! i = Some x /\ p x = true.
Proof.
  induction l as [|a l IH]; simpl; intros H; [done |].
  destruct (p a) eqn:Ha.
  - by exists 0, a.
  - destruct (IH H) as (i & x & Hi & Hx). by exists (S i), x.
Qed.

Lemma is_fetching_pending (t : thread) :
  is_fetching t = true -> is_pending t = true.
Proof. unfold is_fetching, is_pending. by destruct (th_status t). Qed.

Ltac inv_bind H :=
  let x := fresh "x" in
  let Hx := fresh "Hx" in
  apply bind_Ok_inv in H as (x & Hx & H).

Lemma update_local_version_label_thread (w w' : MainWindow) :
  update_local_version_label w = Ok w' ->
  fetch_thread w' = fetch_thread w /\
  btn_check_enabled w' = btn_check_enabled w /\
  current_project_name w' = current_project_name w /\
  config w' = config w /\
  current_release_info w' = current_release_info w.
Proof.
  unfold update_local_version_label. intros H.
  inv_bind H. inv_bind H. inv_bind H. injection H as <-. by destruct w.
Qed.

Lemma update_hos_support_label_thread (w w' : MainWindow) :
  update_hos_support_label w = Ok w' ->
  fetch_thread w' = fetch_thread w /\
  btn_check_enabled w' = btn_check_enabled w /\
  current_project_name w' = current_project_name w /\
  config w' = config w /\
  current_release_info w' = current_release_info w.
Proof.
  unfold update_hos_support_label. intros H.
  inv_bind H. injection H as <-. by destruct w.
Qed.

Lemma on_project_changed_thread (w w' : MainWindow) (name : string) :
  on_project_changed w name = Ok w' ->
  fetch_thread w' = fetch_thread w /\
  btn_check_enabled w' = btn_check_enabled w /\
  current_project_name w' = name /\
  config w' = config w /\
  current_release_info w' = current_release_info w.
Proof.
  unfold on_project_changed. intros H.
  inv_bind H. inv_bind H. injection H as <-.
  apply update_local_version_label_thread in Hx as (? & ? & ? & ? & ?).
  apply update_hos_support_label_thread in Hx0 as (? & ? & ? & ? & ?).
  destruct w, x, x0; simpl in *. by subst.
Qed.

Lemma on_fetch_error_thread (w : MainWindow) (msg : string) :
  fetch_thread (on_fetch_error w msg) = None /\
  btn_check_enabled (on_fetch_error w msg) = true.
Proof. by destruct w. Qed.

(** A failed fetch gives the outcome [Failed]; its message goes to the
    error box, and the release and the configuration stay as they were. *)
Lemma on_fetch_error_outcome (w : MainWindow) (msg : string) :
  status_value (on_fetch_error w msg) = status_text (Failed msg) /\
  dialogs (on_fetch_error w msg)
    = (dialogs w ++ [critical "Error"
         ("Failed to check latest release:" +:+ nl +:+ msg)])%list /\
  current_release_info (on_fetch_error w msg) = current_release_info w /\
  config (on_fetch_error w msg) = config w.
Proof. by destruct w. Qed.

Section Guard.

Context {L : PyLib}.

Lemma set_local_version_thread (w w' : MainWindow) (os os' : osenv)
    (k v : string) :
  set_local_version_for_project w os k v = Ok (w', os') ->
  exists cfg, w' = set_config cfg w.
Proof.
  unfold set_local_version_for_project. intros H.
  inv_bind H. inv_bind H. inv_bind H. inv_bind H. inv_bind H.
  injection H as <- <-. eauto.
Qed.

Lemma set_local_to_latest_thread (w w' : MainWindow) (os os' : osenv) :
  set_local_to_latest w os = Ok (w', os') ->
  fetch_thread w' = fetch_thread w /\
  btn_check_enabled w' = btn_check_enabled w.
Proof.
  unfold set_local_to_latest. intros H.
  destruct (current_release_info w) as [rel_info|].
  - destruct (negb _ || _).
    + injection H as <- <-. by destruct w.
    + inv_bind H. inv_bind H. destruct x0 as [mw os1].
      injection H as <- <-.
      apply set_local_version_thread in Hx0 as [cfg ->]. by destruct w.
  - injection H as <- <-. by destruct w.
Qed.

(** The guard of [start_check]: while the thread the window refers to is
    running, the call changes nothing, so no thread is created and none is
    restarted. *)
Lemma start_check_running (w : World) (i : nat) :
  fetch_thread (win w) = Some i -> isRunning (threads w) i = true ->
  start_check w = Ok w.
Proof. intros Hf Hr. unfold start_check. by rewrite Hf, Hr. Qed.

(** Outside the guard a check creates exactly one thread, running, and
    makes the window refer to it. *)
Lemma start_check_starts (w w' : World) :
  match fetch_thread (win w) with
  | Some i => isRunning (threads w) i
  | None => false
  end = false ->
  start_check w = Ok w' ->
  exists url,
    threads w' = (threads w ++ [{| th_api_url := url;
                                   th_status := Running;
                                   th_finished := false |}])%list /\
    fetch_thread (win w') = Some (length (threads w)) /\
    btn_check_enabled (win w') = false /\
    os w' = os w.
Proof.
  intros Hg. unfold start_check. rewrite Hg. intros H. inv_bind H.
  injection H as <-. simpl. eexists. split; [reflexivity |].
  by destruct (win w).
Qed.

Lemma start_check_one_check (w w' : World) :
  (forall i t, threads w !! i = Some t -> is_pending t = false) ->
  start_check w = Ok w' -> one_check w'.
Proof.
  intros Hnone H.
  assert (Hold : forall i t, threads w !! i = Some t ->
            (is_pending t = true ->
             fetch_thread (win w') = Some i /\ btn_check_enabled (win w') = false)
            /\ (is_fetching t = true -> th_finished t = false)).
  { intros i t Hi. specialize (Hnone i t Hi). split; intros Hp.
    - congruence.
    - apply is_fetching_pending in Hp. congruence. }
  destruct (match fetch_thread (win w) with
            | Some i => isRunning (threads w) i
            | None => false
            end) eqn:Hg.
  - unfold start_check in H. rewrite Hg in H. injection H as <-. exact Hold.
  - destruct (start_check_starts w w' Hg H) as (url & Hths & Hf & Hb & _).
    intros i t Hi. rewrite Hths in Hi.
    apply lookup_app_Some in Hi as [Hi | [Hlen Hi]]; [by apply Hold |].
    destruct (i - length (threads w)) as [|n] eqn:Hn; [| done].
    injection Hi as <-. split; [| done].
    intros _. split; [| exact Hb]. rewrite Hf. f_equal. lia.
Qed.

Lemma init_one_check (os0 : osenv) (w : World) : init os0 = Ok w -> one_check w.
Proof.
  unfold init. intros H. inv_bind H. inv_bind H.
  apply start_check_one_check in H; [exact H |]. by intros [|i] t.
Qed.

Lemma set_thread_status_lookup (ths : list thread) (i j : nat)
    (st : thread_status) (t : thread) :
  set_thread_status ths i st !! j = Some t ->
  (j = i /\ th_status t = st /\
   exists t0, ths !! i = Some t0 /\ th_finished t = th_finished t0) \/
  (j <> i /\ ths !! j = Some t).
Proof.
  unfold set_thread_status. destruct (ths !! i) as [t0|] eqn:Hi.
  - destruct (decide (j = i)) as [-> | Hne].
    + rewrite list_lookup_insert_eq by (by eapply lookup_lt_Some).
      intros [= <-]. left. eauto.
    + rewrite list_lookup_insert_ne by done. eauto.
  - intros Hj. right. split; [| done]. intros ->. congruence.
Qed.

Lemma set_thread_finished_lookup (ths : list thread) (i j : nat) (t : thread) :
  set_thread_finished ths i !! j = Some t ->
  (j = i /\ exists t0, ths !! i = Some t0 /\ th_status t = th_status t0) \/
  (j <> i /\ ths !! j = Some t).
Proof.
  unfold set_thread_finished. destruct (ths !! i) as [t0|] eqn:Hi.
  - destruct (decide (j = i)) as [-> | Hne].
    + rewrite list_lookup_insert_eq by (by eapply lookup_lt_Some).
      intros [= <-]. left. eauto.
    + rewrite list_lookup_insert_ne by done. eauto.
  - intros Hj. right. split; [| done]. intros ->. congruence.
Qed.

Lemma step_one_check (w w' : World) (e : event) :
  one_check w -> step w e = Some w' -> one_check w'.
Proof.
  intros Hinv Hstep. destruct e as [| | name | i net | i | i]; simpl in Hstep.
  - (* the check button *)
    destruct (btn_check_enabled (win w)) eqn:Hb; [| done].
    destruct (start_check w) as [w1|] eqn:Hs; [| done].
    injection Hstep as <-. apply (start_check_one_check w); [| done].
    intros j t Hj. destruct (is_pending t) eqn:Hp; [| done].
    destruct (Hinv j t Hj) as [Hpend _].
    destruct (Hpend Hp) as [_ Hb']. congruence.
  - (* the set-local button *)
    destruct (set_local_to_latest (win w) (os w)) as [[mw os']|] eqn:Hs; [| done].
    injection Hstep as <-.
    apply set_local_to_latest_thread in Hs as [Hf Hb].
    intros j t Hj. simpl in *. rewrite Hf, Hb. exact (Hinv j t Hj).
  - (* another project *)
    destruct (_ && _); [| done].
    destruct (on_project_changed (win w) name) as [mw|] eqn:Hs; [| done].
    injection Hstep as <-.
    apply on_project_changed_thread in Hs as (Hf & Hb & _).
    intros j t Hj. simpl in *. rewrite Hf, Hb. exact (Hinv j t Hj).
  - (* a thread emits its signal *)
    destruct (threads w !! i) as [[url st fin]|] eqn:Hi; [| done].
    destruct st; try done.
    destruct (run net url) as [s|]; [| done].
    injection Hstep as <-. intros j t Hj. simpl in *.
    apply set_thread_status_lookup in Hj as [(-> & Hst & _) | (_ & Hj)].
    + split.
      * intros _. by apply (Hinv i _ Hi).
      * unfold is_fetching. by rewrite Hst.
    + exact (Hinv j t Hj).
  - (* a thread ends *)
    destruct (threads w !! i) as [[url st fin]|] eqn:Hi; [| done].
    assert (Hst : st <> Running) by (intros ->; done).
    assert (Hths : threads w' = set_thread_finished (threads w) i /\
                   win w' = win w).
    { destruct st, fin; try done; by injection Hstep as <-. }
    destruct Hths as [Hths Hwin]. intros j t Hj. rewrite Hths in Hj. rewrite Hwin.
    apply set_thread_finished_lookup in Hj as [(-> & t0 & Ht0 & Hst') | (_ & Hj)].
    + rewrite Hi in Ht0. injection Ht0 as <-. simpl in Hst'. split.
      * intros Hp. apply (Hinv i _ Hi). unfold is_pending in *. simpl.
        by rewrite <- Hst'.
      * unfold is_fetching. rewrite Hst'. by destruct st.
    + exact (Hinv j t Hj).
  - (* a signal is delivered *)
    destruct (threads w !! i) as [[url st fin]|] eqn:Hi; [| done].
    destruct st as [|s|]; try done.
    destruct (Hinv i _ Hi) as [Hpi _]. destruct (Hpi eq_refl) as [Hfi _].
    assert (Hrest : forall j t,
      set_thread_status (threads w) i Delivered !! j = Some t ->
      is_pending t = false).
    { intros j t Hj.
      apply set_thread_status_lookup in Hj as [(-> & Hst & _) | (Hne & Hj)].
      - unfold is_pending. by rewrite Hst.
      - destruct (is_pending t) eqn:Hp; [| done].
        destruct (Hinv j t Hj) as [Hpj _]. destruct (Hpj Hp) as [Hfj _].
        congruence. }
    assert (Hths : threads w' = set_thread_status (threads w) i Delivered).
    { destruct s as [info | msg]; simpl in Hstep.
      - destruct (on_fetch_success (win w) info); [| done].
        by injection Hstep as <-.
      - by injection Hstep as <-. }
    intros j t Hj. rewrite Hths in Hj. specialize (Hrest j t Hj). split.
    + congruence.
    + intros Hp. apply is_fetching_pending in Hp. congruence.
Qed.

Lemma reachable_one_check (w : World) : reachable w -> one_check w.
Proof.
  induction 1 as [os0 w Hinit | w e w' _ IH Hstep].
  - by eapply init_one_check.
  - by eapply step_one_check.
Qed.

End Guard.

(** C3.  In every state the program can reach there is at most one check
    in flight (indeed at most one the window has not handled yet), and
    while one is in flight [start_check] returns the state unchanged: it
    creates no thread, restarts none and queues nothing, so the original
    fetch stays the only one in flight. *)
Theorem at_most_one_check_in_flight {L : PyLib} (w : World) :
  reachable w ->
  pending w <= 1 /\
  in_flight w <= 1 /\
  (in_flight w = 1 -> start_check w = Ok w /\ in_flight w = 1).
Proof.
  intros Hreach. pose proof (reachable_one_check w Hreach) as Hinv.
  assert (Hpending : pending w <= 1).
  { apply filter_at_most_one. intros i j x y Hi Hj Hx Hy.
    destruct (proj1 (Hinv i x Hi) Hx) as [Hfi _].
    destruct (proj1 (Hinv j y Hj) Hy) as [Hfj _]. congruence. }
  assert (Hflight : in_flight w <= 1).
  { apply filter_at_most_one. intros i j x y Hi Hj Hx Hy.
    destruct (proj1 (Hinv i x Hi) (is_fetching_pending x Hx)) as [Hfi _].
    destruct (proj1 (Hinv j y Hj) (is_fetching_pending y Hy)) as [Hfj _].
    congruence. }
  split; [exact Hpending |]. split; [exact Hflight |].
  intros Hone. split; [| exact Hone].
  destruct (filter_some is_fetching (threads w)) as (i & t & Hi & Ht).
  { unfold in_flight in Hone. intros Hnil. rewrite Hnil in Hone. discriminate. }
  destruct (Hinv i t Hi) as [Hpend Hfin].
  destruct (Hpend (is_fetching_pending t Ht)) as [Hf _].
  apply (start_check_running w i Hf). unfold isRunning.
  by rewrite Hi, (Hfin Ht).
Qed.

Lemma at_most_one_check_in_flight_witness :
  exists w : World (L := IdLib),
    init (os_with None) = Ok w /\
    in_flight w = 1 /\
    start_check w = Ok w.
Proof.
  destruct (init (L := IdLib) (os_with None)) as [w|] eqn:Hinit;
    [| vm_compute in Hinit; discriminate].
  exists w. split; [reflexivity |].
  assert (Hone : in_flight w = 1).
  { vm_compute in Hinit. injection Hinit as <-. reflexivity. }
  split; [exact Hone |].
  apply (at_most_one_check_in_flight w); [| exact Hone].
  exact (reachable_init (os_with None) w Hinit).
Defined.

(** A second check starts once the first has been handled, and the button
    refuses a click while a check is under way. *)
Example check_after_check :
  let answer := net_answering (L := IdLib) (PDict {["tag_name" := PStr "1.9.5"]}) in
  (w0 ← res_to_option (init (L := IdLib) (os_with None));
   step w0 ClickCheck) = None /\
  (w0 ← res_to_option (init (L := IdLib) (os_with None));
   w1 ← run_events w0 [ThreadEmits 0 answer; ClickCheck];
   Some w1) = None /\
  (w0 ← res_to_option (init (L := IdLib) (os_with None));
   w1 ← run_events w0 [ThreadEmits 0 answer; SignalDelivered 0; ClickCheck];
   Some (in_flight w1, length (threads w1), latest_value (win w1)))
  = Some (1, 2, "1.9.5").
Proof. vm_compute. repeat split. Qed.

(** [start_check] looks at the thread, not at the status label.  After the
    thread has ended and before its signal is handled no fetch is in flight
    and the button is still disabled; were [start_check] called directly
    then, it would start a thread, and the signal handled late would clear
    the window's reference to it.  The disabled button keeps the program
    out of these states. *)
Example guard_needs_the_button :
  let answer := net_answering (L := IdLib) (PDict {["tag_name" := PStr "1.9.5"]}) in
  (w0 ← res_to_option (init (L := IdLib) (os_with None));
   w1 ← run_events w0 [ThreadEmits 0 answer; ThreadFinishes 0];
   w2 ← res_to_option (start_check w1);
   w3 ← run_events w2 [SignalDelivered 0; ClickCheck];
   Some (btn_check_enabled (win w1), in_flight w2, in_flight w3))
  = Some (false, 1, 2).
Proof. vm_compute. reflexivity. Qed.

(** ** C2: committing the latest version *)

Section Commit.

Context {L : PyLib}.

(** Without a release in memory the commit warns and changes nothing
    else. *)
Lemma set_local_to_latest_no_release (w : MainWindow) (os : osenv) :
  current_release_info w = None ->
  exists w', set_local_to_latest w os = Ok (w', os) /\
    config w' = config w /\
    dialogs w' = (dialogs w ++ [warning "Warning"
      ("No latest release info yet." +:+ nl +:+ "Press 'Check Now' first.")])%list.
Proof.
  intros H. unfold set_local_to_latest. rewrite H.
  eexists. split; [reflexivity |]. by destruct w.
Qed.

(** With an empty tag, or the tag ["Unknown"], the commit warns and changes
    nothing else. *)
Lemma set_local_to_latest_unknown_tag (w : MainWindow) (os : osenv)
    (rel_info : ReleaseInfo) :
  current_release_info w = Some rel_info ->
  tag rel_info = "" \/ tag rel_info = "Unknown" ->
  exists w', set_local_to_latest w os = Ok (w', os) /\
    config w' = config w /\
    dialogs w' = (dialogs w ++ [warning "Warning"
      "Latest version is unknown. Cannot set local."])%list.
Proof.
  intros H Ht. unfold set_local_to_latest. rewrite H.
  assert (negb (nonempty (str_or (tag rel_info) ""))
          || String.eqb (str_or (tag rel_info) "") "Unknown" = true) as ->
    by (destruct Ht as [-> | ->]; reflexivity).
  eexists. split; [reflexivity |]. by destruct w.
Qed.

(** With a known tag the commit writes it under the key of the project
    selected now, whichever project the release was fetched for. *)
Lemma set_local_to_latest_commits (w : MainWindow) (os : osenv)
    (rel_info : ReleaseInfo) (info : ProjectInfo) (m : gmap string pyval) :
  current_release_info w = Some rel_info ->
  tag rel_info <> "" -> tag rel_info <> "Unknown" ->
  get_current_project_info w = Ok info ->
  config w = PDict m -> well_formed m ->
  exists w' os', set_local_to_latest w os = Ok (w', os') /\
    get_local_version_for_project w' (key info) = Ok (PStr (tag rel_info)) /\
    local_value w' = tag rel_info /\
    status_value w' = "Local version updated.".
Proof.
  intros Hrel Hne Hunk Hinfo Hc Hwf. unfold set_local_to_latest.
  rewrite Hrel, (str_or_nonempty _ _ Hne). unfold nonempty.
  destruct (String.eqb_spec (tag rel_info) ""); [contradiction |].
  destruct (String.eqb_spec (tag rel_info) "Unknown"); [contradiction |].
  simpl. rewrite Hinfo, bind_Ok.
  rewrite (set_local_version_Ok w os _ _ m Hc Hwf), bind_Ok.
  eexists _, _. split; [reflexivity |].
  split; [| by destruct w].
  erewrite get_local_version_lookup.
  - by rewrite lookup_insert_eq.
  - by destruct w.
  - by rewrite lookup_insert_eq.
Qed.

End Commit.

(** C2 fails on the code.  The release fetched for Atmosphere stays in
    memory when the user selects Hekate, although the window then says that
    there is no data for this project; the commit that follows succeeds and
    stores Atmosphere's tag as the local version of Hekate. *)
Theorem commit_after_project_change :
  let atmosphere := net_answering (L := IdLib) (PDict {["tag_name" := PStr "1.3.0"]}) in
  exists w : World (L := IdLib),
    (w0 ← res_to_option (init (os_with None));
     run_events w0 [ThreadEmits 0 atmosphere; SignalDelivered 0;
                    SelectProject "Hekate"; ClickSetLocal]) = Some w /\
    th_api_url <$> threads w
      = ["https://api.github.com/repos/Atmosphere-NX/Atmosphere/releases/latest"] /\
    current_project_name (win w) = "Hekate" /\
    get_local_version_for_project (win w) "hekate" = Ok (PStr "1.3.0") /\
    get_local_version_for_project (win w) "atmosphere" = Ok PNone /\
    cfg_file (os w) = Some (PDict {["local_versions" := PDict {["hekate" := PStr "1.3.0"]}]}) /\
    status_value (win w) = "Local version updated." /\
    dialogs (win w) = [].
Proof.
  eexists. split; [vm_compute; reflexivity |].
  vm_compute. repeat split.
Qed.

(** The state of the window just before that commit: another project than
    the release belongs to, and labels that announce no data. *)
Example no_data_label_before_commit :
  let atmosphere := net_answering (L := IdLib) (PDict {["tag_name" := PStr "1.3.0"]}) in
  (w0 ← res_to_option (init (L := IdLib) (os_with None));
   w ← run_events w0 [ThreadEmits 0 atmosphere; SignalDelivered 0;
                      SelectProject "Hekate"];
   Some (latest_value (win w), changelog_edit (win w),
         tag <$> current_release_info (win w)))
  = Some ("Unknown", "No data for this project yet. Press 'Check Now'.",
          Some "1.3.0").
Proof. vm_compute. reflexivity. Qed.

(** ** C4: loading a damaged configuration *)

Section Load.

Context {L : PyLib}.

(** [load_config] returns for every state of the file: it has no failing
    path.  For a missing file, a file that cannot be opened, content that
    does not parse, or a parsed value that is no container, it gives the
    default; for a parsed object it gives the object, with an empty
    [local_versions] when it had none. *)
Lemma load_config_cases (os : osenv) :
  load_config os = default_config \/
  exists t v, cfg_file os = Some t /\ open_read_error os = None /\
    json_loads t = Ok v /\
    ((exists m, v = PDict m /\
        load_config os = PDict (match m !! "local_versions" with
                                | Some _ => m
                                | None => <["local_versions" := PDict ∅]> m
                                end)) \/
     ((exists l, v = PList l) \/ (exists s, v = PStr s)) /\
       py_contains "local_versions" v = Ok true /\ load_config os = v).
Proof.
  destruct (cfg_file os) as [t|] eqn:Hf;
    [| left; by apply load_config_missing_file].
  destruct (open_read_error os) as [e|] eqn:Hr;
    [left; by eapply load_config_unreadable |].
  destruct (json_loads t) as [v|e] eqn:Ht;
    [| left; by eapply load_config_unparsable].
  destruct v as [| b | n | f | s | l | m];
    try (left; by eapply load_config_scalar).
  - (* a string *)
    unfold load_config, load_config_try. rewrite Hf, Hr, Ht, bind_Ok.
    unfold py_contains. rewrite bind_Ok.
    destruct (str_contains "local_versions" s) eqn:Hs; [| by left].
    right. exists t, (PStr s). repeat split; try done. right.
    split; [eauto |]. unfold py_contains. by rewrite Hs.
  - (* a list *)
    unfold load_config, load_config_try. rewrite Hf, Hr, Ht, bind_Ok.
    unfold py_contains. rewrite bind_Ok.
    destruct (existsb (eq_str "local_versions") l) eqn:Hl; [| by left].
    right. exists t, (PList l). repeat split; try done. right.
    split; [eauto |]. unfold py_contains. by rewrite Hl.
  - (* an object *)
    right. exists t, (PDict m). repeat split; try done. left.
    exists m. split; [done |]. by apply (load_config_dict os t).
Qed.

(** A parsed list that holds the string ["local_versions"] passes the
    membership test and is returned as the configuration; the window cannot
    be built from it. *)
Lemma load_config_list (os : osenv) (t : text) (l : list pyval) :
  cfg_file os = Some t -> open_read_error os = None ->
  json_loads t = Ok (PList l) ->
  existsb (eq_str "local_versions") l = true ->
  load_config os = PList l /\
  init os = raise AttributeError "'list' object has no attribute 'get'".
Proof.
  intros Hf Hr Ht Hl.
  assert (Hload : load_config os = PList l).
  { unfold load_config, load_config_try. rewrite Hf, Hr, Ht, bind_Ok.
    unfold py_contains. by rewrite Hl. }
  split; [exact Hload |]. unfold init. by rewrite Hload.
Qed.

(** A parsed object whose [local_versions] is no object is returned as it
    is. *)
Lemma load_config_wrong_type (os : osenv) (t : text) (m : gmap string pyval)
    (v : pyval) :
  cfg_file os = Some t -> open_read_error os = None ->
  json_loads t = Ok (PDict m) -> m !! "local_versions" = Some v ->
  load_config os = PDict m.
Proof.
  intros Hf Hr Ht Hm. rewrite (load_config_dict os t m Hf Hr Ht). by rewrite Hm.
Qed.

End Load.

(** C4 fails on the code.  A configuration file holding the JSON text
    [["local_versions"]] parses, and [load_config] returns the parsed list:
    a value with no [local_versions] mapping, from which [__init__] raises
    [AttributeError].  A file holding [{"local_versions": null}] is returned
    as it is too, with the same end. *)
Theorem load_config_returns_no_state :
  let list_file := os_with (L := IdLib) (Some (PList [PStr "local_versions"])) in
  let null_file :=
    os_with (L := IdLib) (Some (PDict {["local_versions" := PNone]})) in
  load_config list_file = PList [PStr "local_versions"] /\
  load_config list_file <> default_config /\
  init list_file = raise AttributeError "'list' object has no attribute 'get'" /\
  load_config null_file = PDict {["local_versions" := PNone]} /\
  init null_file = raise AttributeError "'NoneType' object has no attribute 'get'".
Proof.
  vm_compute. repeat split. discriminate.
Qed.

(** * More of the program *)

(** ** What each handler leaves alone *)

Lemma projects_getitem_In (ps : list (string * ProjectInfo)) (name : string)
    (info : ProjectInfo) :
  projects_getitem ps name = Ok info -> In (name, info) ps.
Proof.
  induction ps as [|[n i] ps IH]; [done |].
  unfold projects_getitem; fold projects_getitem.
  destruct (String.eqb_spec n name) as [-> | Hne].
  - intros [= ->]. by left.
  - intros H. right. by apply IH.
Qed.

Lemma on_fetch_success_frame (w w' : MainWindow) (rel_info : ReleaseInfo) :
  on_fetch_success w rel_info = Ok w' ->
  config w' = config w /\
  current_project_name w' = current_project_name w /\
  local_value w' = local_value w /\
  hos_value w' = hos_value w /\
  current_release_info w' = Some rel_info.
Proof.
  unfold on_fetch_success, get_current_project_info, get_local_version_for_project.
  window w.
  destruct (projects_getitem _ _); [rewrite bind_Ok | discriminate].
  destruct (py_get _ _ _ ≫= _); [rewrite bind_Ok | discriminate].
  destruct (negb (truthy _));
    [| destruct (negb (_ || _)); [destruct (str_ne _ _) |]];
    intros [= <-]; done.
Qed.

Lemma on_fetch_error_frame (w : MainWindow) (msg : string) :
  config (on_fetch_error w msg) = config w /\
  current_project_name (on_fetch_error w msg) = current_project_name w /\
  local_value (on_fetch_error w msg) = local_value w /\
  hos_value (on_fetch_error w msg) = hos_value w /\
  current_release_info (on_fetch_error w msg) = current_release_info w.
Proof. by destruct w. Qed.

Lemma labels_in_sync_same (w w' : MainWindow) :
  config w' = config w ->
  current_project_name w' = current_project_name w ->
  local_value w' = local_value w ->
  hos_value w' = hos_value w ->
  labels_in_sync w -> labels_in_sync w'.
Proof.
  intros Hc Hn Hl Hh (info & local & Hinfo & Hhos & Hlocal & Hshow).
  exists info, local.
  unfold get_current_project_info, get_local_version_for_project in *.
  by rewrite Hc, Hn, Hl, Hh.
Qed.

Lemma update_labels_in_sync (w w1 w2 : MainWindow) :
  update_local_version_label w = Ok w1 ->
  update_hos_support_label w1 = Ok w2 ->
  labels_in_sync w2.
Proof.
  unfold update_local_version_label, update_hos_support_label.
  intros H1 H2.
  apply bind_Ok_inv in H1 as (info & Hinfo & H1).
  apply bind_Ok_inv in H1 as (local & Hlocal & H1).
  apply bind_Ok_inv in H1 as (s & Hs & H1). injection H1 as <-.
  apply bind_Ok_inv in H2 as (info' & Hinfo' & H2). injection H2 as <-.
  assert (info' = info) as ->.
  { unfold get_current_project_info in *. destruct w; simpl in *. congruence. }
  exists info, local.
  unfold get_current_project_info, get_local_version_for_project in *.
  destruct w; simpl in *. done.
Qed.

Lemma on_project_changed_in_sync (w w' : MainWindow) (name : string) :
  on_project_changed w name = Ok w' -> labels_in_sync w'.
Proof.
  unfold on_project_changed. intros H.
  apply bind_Ok_inv in H as (w1 & H1 & H).
  apply bind_Ok_inv in H as (w2 & H2 & H). injection H as <-.
  pose proof (update_labels_in_sync _ _ _ H1 H2) as Hsync.
  eapply labels_in_sync_same; [.. | exact Hsync]; by destruct w2.
Qed.

Section Handlers.

Context {L : PyLib}.

(** [set_local_version_for_project] returns only for a configuration object
    whose [local_versions], when present, is an object. *)
Lemma set_local_version_inv (w w' : MainWindow) (os os' : osenv) (k v : string) :
  set_local_version_for_project w os k v = Ok (w', os') ->
  exists m, config w = PDict m /\ well_formed m.
Proof.
  unfold set_local_version_for_project, well_formed. intros H.
  destruct (config w) as [| b | n | f | s | l | m] eqn:Hc; try discriminate.
  - unfold py_contains in H. rewrite bind_Ok in H.
    destruct (str_contains _ _); discriminate.
  - unfold py_contains in H. rewrite bind_Ok in H.
    destruct (existsb _ _); discriminate.
  - exists m. split; [done |].
    unfold py_contains in H. rewrite bind_Ok in H.
    destruct (m !! "local_versions") as [x|] eqn:Hm; [| done].
    rewrite bool_decide_eq_true_2 in H by eauto.
    rewrite bind_Ok in H. simpl in H. rewrite Hm, bind_Ok in H.
    destruct x; try discriminate. eauto.
Qed.

(** Everything [set_local_to_latest] can do, for a window whose selection
    is in the catalog and whose configuration is well formed. *)
Lemma set_local_to_latest_cases (w : MainWindow) (os : osenv)
    (info : ProjectInfo) (m : gmap string pyval) :
  get_current_project_info w = Ok info ->
  config w = PDict m -> well_formed m ->
  match current_release_info w with
  | None =>
      set_local_to_latest w os
      = Ok (show_dialog (warning "Warning"
              ("No latest release info yet." +:+ nl +:+ "Press 'Check Now' first."))
              w, os)
  | Some rel_info =>
      if String.eqb (tag rel_info) "" || String.eqb (tag rel_info) "Unknown"
      then set_local_to_latest w os
           = Ok (show_dialog (warning "Warning"
                   "Latest version is unknown. Cannot set local.") w, os)
      else
        let cfg := PDict (<["local_versions" :=
                     PDict (<[key info := PStr (tag rel_info)]>
                              (local_versions_of m))]> m) in
        set_local_to_latest w os
        = Ok (set_status_value "Local version updated."
                (set_local_value (tag rel_info) (set_config cfg w)),
              save_config os cfg)
  end.
Proof.
  intros Hinfo Hc Hwf. unfold set_local_to_latest.
  destruct (current_release_info w) as [rel_info|]; [| done].
  unfold str_or, nonempty.
  destruct (String.eqb (tag rel_info) "") eqn:E1.
  - rewrite String.eqb_refl. reflexivity.
  - rewrite E1. simpl.
    destruct (String.eqb (tag rel_info) "Unknown") eqn:E2; [reflexivity |].
    rewrite Hinfo, bind_Ok.
    by rewrite (set_local_version_Ok w os _ _ m Hc Hwf), bind_Ok.
Qed.

Lemma set_local_to_latest_inv (w w' : MainWindow) (os os' : osenv) :
  set_local_to_latest w os = Ok (w', os') ->
  (exists d, w' = show_dialog d w /\ os' = os) \/
  (exists rel_info info m,
     current_release_info w = Some rel_info /\
     tag rel_info <> "" /\ tag rel_info <> "Unknown" /\
     get_current_project_info w = Ok info /\
     config w = PDict m /\ well_formed m /\
     w' = set_status_value "Local version updated."
            (set_local_value (tag rel_info)
               (set_config (PDict (<["local_versions" :=
                  PDict (<[key info := PStr (tag rel_info)]>
                           (local_versions_of m))]> m)) w)) /\
     os' = save_config os (PDict (<["local_versions" :=
                  PDict (<[key info := PStr (tag rel_info)]>
                           (local_versions_of m))]> m))).
Proof.
  intros H. pose proof H as H0. unfold set_local_to_latest in H.
  destruct (current_release_info w) as [rel_info|] eqn:Hrel;
    [| injection H as <- <-; eauto].
  unfold str_or, nonempty in H.
  destruct (String.eqb (tag rel_info) "") eqn:E1.
  { rewrite String.eqb_refl in H. injection H as <- <-. eauto. }
  rewrite E1 in H. simpl in H.
  destruct (String.eqb (tag rel_info) "Unknown") eqn:E2.
  { injection H as <- <-. eauto. }
  apply bind_Ok_inv in H as (info & Hinfo & H).
  apply bind_Ok_inv in H as ([w1 os1] & Hset & H).
  destruct (set_local_version_inv _ _ _ _ _ _ Hset) as (m & Hc & Hwf).
  pose proof (set_local_to_latest_cases w os info m Hinfo Hc Hwf) as Hcases.
  rewrite Hrel, E1, E2 in Hcases.
  simpl in Hcases. rewrite Hcases in H0. injection H0 as <- <-.
  right. exists rel_info, info, m.
  apply String.eqb_neq in E1, E2. done.
Qed.

Lemma set_local_to_latest_in_sync (w w' : MainWindow) (os os' : osenv) :
  set_local_to_latest w os = Ok (w', os') ->
  labels_in_sync w -> labels_in_sync w'.
Proof.
  intros H Hsync.
  destruct (set_local_to_latest_inv w w' os os' H)
    as [(d & -> & _) | (rel & info & m & _ & Hne & _ & Hinfo & Hc & _ & -> & _)].
  - eapply labels_in_sync_same; [.. | exact Hsync]; by destruct w.
  - destruct Hsync as (info' & local & Hinfo' & Hhos & _ & _).
    assert (info' = info) as -> by congruence.
    exists info, (PStr (tag rel)).
    split; [by destruct w |]. split; [by destruct w |]. split.
    + erewrite get_local_version_lookup.
      * by rewrite lookup_insert_eq.
      * by destruct w.
      * by rewrite lookup_insert_eq.
    + unfold truthy. destruct (String.eqb_spec (tag rel) ""); [done |].
      by destruct w.
Qed.

Lemma set_local_to_latest_frame (w w' : MainWindow) (os os' : osenv) :
  set_local_to_latest w os = Ok (w', os') ->
  current_project_name w' = current_project_name w /\
  current_release_info w' = current_release_info w /\
  hos_value w' = hos_value w.
Proof.
  intros H.
  destruct (set_local_to_latest_inv w w' os os' H)
    as [(d & -> & _) | (rel & info & m & _ & _ & _ & _ & _ & _ & -> & _)];
    by destruct w.
Qed.

Lemma start_check_frame (w w' : World) :
  start_check w = Ok w' ->
  config (win w') = config (win w) /\
  current_project_name (win w') = current_project_name (win w) /\
  local_value (win w') = local_value (win w) /\
  hos_value (win w') = hos_value (win w) /\
  current_release_info (win w') = current_release_info (win w) /\
  os w' = os w.
Proof.
  unfold start_check.
  destruct (match fetch_thread (win w) with
            | Some i => isRunning (threads w) i
            | None => false
            end); [by intros [= <-] |].
  intros H. inv_bind H. injection H as <-. simpl. by destruct (win w).
Qed.

End Handlers.

(** ** What holds in every state the program reaches *)

Section Reachable.

Context {L : PyLib}.

(** What an event that happens has done. *)
Lemma step_inv (w w' : World) (e : event) :
  step w e = Some w' ->
  match e with
  | ClickCheck => btn_check_enabled (win w) = true /\ start_check w = Ok w'
  | ClickSetLocal =>
      exists mw os',
        set_local_to_latest (win w) (os w) = Ok (mw, os') /\
        w' = {| win := mw; threads := threads w; os := os' |}
  | SelectProject name =>
      exists mw,
        name <> current_project_name (win w) /\
        on_project_changed (win w) name = Ok mw /\
        w' = {| win := mw; threads := threads w; os := os w |}
  | ThreadEmits i net =>
      exists t s,
        threads w !! i = Some t /\ th_status t = Running /\
        run net (th_api_url t) = Ok s /\
        w' = {| win := win w;
                threads := set_thread_status (threads w) i (Emitted s);
                os := os w |}
  | ThreadFinishes i =>
      exists t,
        threads w !! i = Some t /\ th_status t <> Running /\
        th_finished t = false /\
        w' = {| win := win w;
                threads := set_thread_finished (threads w) i;
                os := os w |}
  | SignalDelivered i =>
      exists t s mw,
        threads w !! i = Some t /\ th_status t = Emitted s /\
        match s with
        | finished_ok info => on_fetch_success (win w) info = Ok mw
        | finished_error msg => mw = on_fetch_error (win w) msg
        end /\
        w' = {| win := mw;
                threads := set_thread_status (threads w) i Delivered;
                os := os w |}
  end.
Proof.
  destruct e as [| | name | i net | i | i]; simpl; intros Hstep.
  - destruct (btn_check_enabled (win w)); [| done].
    destruct (start_check w); [| done]. by injection Hstep as <-.
  - destruct (set_local_to_latest (win w) (os w)) as [[mw os']|]; [| done].
    injection Hstep as <-. eauto.
  - destruct (_ || _); [| done]. simpl in Hstep.
    destruct (String.eqb_spec name (current_project_name (win w))); [done |].
    simpl in Hstep.
    destruct (on_project_changed (win w) name) as [mw|]; [| done].
    injection Hstep as <-. eauto.
  - destruct (threads w !! i) as [[url st fin]|] eqn:Hi; [| done].
    destruct st; try done.
    destruct (run net url) as [s|] eqn:Hrun; [| done].
    injection Hstep as <-. eexists _, s. done.
  - destruct (threads w !! i) as [[url st fin]|] eqn:Hi; [| done].
    destruct st, fin; try done; injection Hstep as <-; eexists; done.
  - destruct (threads w !! i) as [[url st fin]|] eqn:Hi; [| done].
    destruct st as [| s |]; try done.
    destruct s as [info | msg]; simpl in Hstep.
    + destruct (on_fetch_success (win w) info) as [mw|] eqn:Hs; [| done].
      injection Hstep as <-. eexists _, (finished_ok info), mw. done.
    + injection Hstep as <-. eexists _, (finished_error msg), _. done.
Qed.

(** The window part of a step: the labels that follow the selection stay
    in step with it. *)
Lemma step_labels_in_sync (w w' : World) (e : event) :
  labels_in_sync (win w) -> step w e = Some w' -> labels_in_sync (win w').
Proof.
  intros Hsync Hstep. apply step_inv in Hstep.
  destruct e as [| | name | i net | i | i].
  - destruct Hstep as [_ Hs].
    apply start_check_frame in Hs as (? & ? & ? & ? & _).
    by eapply labels_in_sync_same.
  - destruct Hstep as (mw & os' & Hs & ->).
    by eapply set_local_to_latest_in_sync.
  - destruct Hstep as (mw & _ & Hs & ->). by eapply on_project_changed_in_sync.
  - by destruct Hstep as (t & s & _ & _ & _ & ->).
  - by destruct Hstep as (t & _ & _ & _ & ->).
  - destruct Hstep as (t & s & mw & _ & _ & Hs & ->). simpl.
    destruct s as [info | msg].
    + apply on_fetch_success_frame in Hs as (? & ? & ? & ? & _).
      by eapply labels_in_sync_same.
    + subst mw. destruct (on_fetch_error_frame (win w) msg) as (? & ? & ? & ? & _).
      by eapply labels_in_sync_same.
Qed.

Lemma init_labels_in_sync (os0 : osenv) (w : World) :
  init os0 = Ok w -> labels_in_sync (win w).
Proof.
  unfold init. intros H.
  apply bind_Ok_inv in H as (w1 & H1 & H).
  apply bind_Ok_inv in H as (w2 & H2 & H).
  pose proof (update_labels_in_sync _ _ _ H1 H2) as Hsync.
  apply start_check_frame in H as (? & ? & ? & ? & _).
  by eapply labels_in_sync_same.
Qed.

Lemma reachable_labels_in_sync (w : World) :
  reachable w -> labels_in_sync (win w).
Proof.
  induction 1 as [os0 w Hinit | w e w' _ IH Hstep].
  - by eapply init_labels_in_sync.
  - by eapply step_labels_in_sync.
Qed.

End Reachable.

Section Threads.

Context {L : PyLib}.

(** The two ways of [start_check]: the guard, or one new thread for the
    selected project. *)
Lemma start_check_cases (w w' : World) :
  start_check w = Ok w' ->
  (exists i, fetch_thread (win w) = Some i /\
     isRunning (threads w) i = true /\ w' = w) \/
  (exists info,
     get_current_project_info (win w) = Ok info /\
     threads w' = (threads w ++ [{| th_api_url := api_url info;
                                    th_status := Running;
                                    th_finished := false |}])%list /\
     fetch_thread (win w') = Some (length (threads w)) /\
     btn_check_enabled (win w') = false /\
     status_value (win w') = "Checking...").
Proof.
  unfold start_check. destruct (fetch_thread (win w)) as [i|] eqn:Hf.
  - destruct (isRunning (threads w) i) eqn:Hr.
    + intros [= <-]. left. eauto.
    + intros H. apply bind_Ok_inv in H as (info & Hinfo & H).
      injection H as <-. right. exists info. simpl. by destruct (win w).
  - intros H. apply bind_Ok_inv in H as (info & Hinfo & H).
    injection H as <-. right. exists info. simpl. by destruct (win w).
Qed.

Lemma set_thread_status_catalog (ths : list thread) (i : nat)
    (st : thread_status) :
  Forall catalog_thread ths -> Forall catalog_thread (set_thread_status ths i st).
Proof.
  intros H. unfold set_thread_status.
  destruct (ths !! i) as [t|] eqn:Hi; [| done].
  apply Forall_insert; [done |].
  exact (proj1 (Forall_lookup _ _) H i t Hi).
Qed.

Lemma set_thread_finished_catalog (ths : list thread) (i : nat) :
  Forall catalog_thread ths -> Forall catalog_thread (set_thread_finished ths i).
Proof.
  intros H. unfold set_thread_finished.
  destruct (ths !! i) as [t|] eqn:Hi; [| done].
  apply Forall_insert; [done |].
  exact (proj1 (Forall_lookup _ _) H i t Hi).
Qed.

Lemma start_check_catalog (w w' : World) :
  Forall catalog_thread (threads w) -> start_check w = Ok w' ->
  Forall catalog_thread (threads w').
Proof.
  intros H Hs.
  destruct (start_check_cases w w' Hs)
    as [(i & _ & _ & ->) | (info & Hinfo & -> & _)]; [done |].
  apply Forall_app. split; [done |]. apply Forall_singleton.
  exists (current_project_name (win w)), info.
  split; [| done]. by apply projects_getitem_In.
Qed.

Lemma reachable_catalog (w : World) :
  reachable w -> Forall catalog_thread (threads w).
Proof.
  induction 1 as [os0 w Hinit | w e w' _ IH Hstep].
  - unfold init in Hinit.
    apply bind_Ok_inv in Hinit as (w1 & _ & Hinit).
    apply bind_Ok_inv in Hinit as (w2 & _ & Hinit).
    by apply start_check_catalog in Hinit.
  - apply step_inv in Hstep. destruct e as [| | name | i net | i | i].
    + destruct Hstep as [_ Hs]. by eapply start_check_catalog.
    + by destruct Hstep as (mw & os' & _ & ->).
    + by destruct Hstep as (mw & _ & _ & ->).
    + destruct Hstep as (t & s & _ & _ & _ & ->).
      by apply set_thread_status_catalog.
    + destruct Hstep as (t & _ & _ & _ & ->).
      by apply set_thread_finished_catalog.
    + destruct Hstep as (t & s & mw & _ & _ & _ & ->).
      by apply set_thread_status_catalog.
Qed.

Lemma set_thread_finished_pending (ths : list thread) (i j : nat) (t : thread) :
  ths !! j = Some t -> is_pending t = true ->
  exists t', set_thread_finished ths i !! j = Some t' /\ is_pending t' = true.
Proof.
  intros Hj Hp. unfold set_thread_finished.
  destruct (ths !! i) as [t0|] eqn:Hi; [| eauto].
  destruct (decide (i = j)) as [-> | Hne].
  - rewrite list_lookup_insert_eq by (by eapply lookup_lt_Some).
    eexists. split; [done |]. rewrite Hj in Hi. by injection Hi as <-.
  - rewrite list_lookup_insert_ne by done. eauto.
Qed.

Lemma step_idle_when_handled (w w' : World) (e : event) :
  idle_when_handled w -> step w e = Some w' -> idle_when_handled w'.
Proof.
  intros Hidle Hstep. apply step_inv in Hstep.
  destruct e as [| | name | i net | i | i].
  - destruct Hstep as [_ Hs].
    destruct (start_check_cases w w' Hs)
      as [(i & _ & _ & ->) | (info & _ & Hths & _)]; [done |].
    left. eexists (length (threads w)), _. rewrite Hths.
    split; [by rewrite lookup_app_r, Nat.sub_diag by lia | done].
  - destruct Hstep as (mw & os' & Hs & ->).
    apply set_local_to_latest_thread in Hs as [Hf Hb].
    unfold idle_when_handled in *. simpl. by rewrite Hf, Hb.
  - destruct Hstep as (mw & _ & Hs & ->).
    apply on_project_changed_thread in Hs as (Hf & Hb & _).
    unfold idle_when_handled in *. simpl. by rewrite Hf, Hb.
  - destruct Hstep as (t & s & Hi & _ & _ & ->). left. simpl.
    exists i. unfold set_thread_status. rewrite Hi.
    rewrite list_lookup_insert_eq by (by eapply lookup_lt_Some). eauto.
  - destruct Hstep as (t & _ & _ & _ & ->).
    destruct Hidle as [(j & t' & Hj & Hp) | Hidle]; [| by right].
    left. destruct (set_thread_finished_pending _ i j t' Hj Hp) as (t'' & ? & ?).
    by exists j, t''.
  - destruct Hstep as (t & s & mw & _ & _ & Hs & ->). right. simpl.
    destruct s as [info | msg].
    + by apply on_fetch_success_thread in Hs.
    + subst mw. apply on_fetch_error_thread.
Qed.

Lemma reachable_idle_when_handled (w : World) :
  reachable w -> idle_when_handled w.
Proof.
  induction 1 as [os0 w Hinit | w e w' _ IH Hstep].
  - unfold init in Hinit.
    apply bind_Ok_inv in Hinit as (w1 & _ & Hinit).
    apply bind_Ok_inv in Hinit as (w2 & _ & Hinit).
    destruct (start_check_cases _ w Hinit)
      as [(i & _ & Hr & _) | (info & _ & Hths & _)]; [done |].
    left. exists 0. rewrite Hths. eauto.
  - by eapply step_idle_when_handled.
Qed.

Lemma pending_zero (w : World) :
  pending w = 0 <-> forall i t, threads w !! i = Some t -> is_pending t = false.
Proof.
  unfold pending. split.
  - intros H i t Hi. destruct (is_pending t) eqn:Hp; [| done].
    assert (Hin : In t (List.filter is_pending (threads w))).
    { apply filter_In. split; [| done].
      apply list_elem_of_In, list_elem_of_lookup. eauto. }
    destruct (List.filter is_pending (threads w)); [done | discriminate].
  - intros H. by rewrite filter_none.
Qed.

Lemma filter_app_one {A : Type} (p : A -> bool) (l : list A) (x : A) :
  p x = true ->
  length (List.filter p (l ++ [x])) = S (length (List.filter p l)).
Proof.
  intros Hx. rewrite List.filter_app, length_app. simpl. rewrite Hx. simpl. lia.
Qed.

End Threads.

(** ** The worker thread and the release client *)

Section Worker.

Context {L : PyLib}.




End Worker.

(** ** Loading and starting *)

Section Startup.

Context {L : PyLib}.

(** X3.  Whatever the file holds, the value [load_config] returns passes
    the membership test the function is built around: ["local_versions" in
    data] is true, and evaluating it does not raise. *)
Theorem load_config_has_local_versions (os : osenv) :
  py_contains "local_versions" (load_config os) = Ok true.
Proof.
  destruct (load_config_cases os)
    as [-> | (t & v & _ & _ & _ & [(m & -> & ->) | (_ & Hin & ->)])].
  - reflexivity.
  - unfold py_contains. f_equal. apply bool_decide_eq_true_2.
    destruct (m !! "local_versions") as [x|] eqn:Hm; [by rewrite Hm |].
    by rewrite lookup_insert_eq.
  - exact Hin.
Qed.

(** What [get_local_version_for_project] returns, and when. *)
Lemma get_local_version_spec (w : MainWindow) (k : string) (v : pyval) :
  get_local_version_for_project w k = Ok v <->
  exists m, config w = PDict m /\ well_formed m /\
    v = from_option id PNone (local_versions_of m !! k).
Proof.
  unfold get_local_version_for_project, py_get, well_formed, local_versions_of.
  split.
  - intros H. destruct (config w) as [| | | | | | m]; try discriminate.
    exists m. split; [done |]. rewrite bind_Ok in H.
    destruct (m !! "local_versions") as [x|]; simpl in H.
    + destruct x; try discriminate. injection H as <-. eauto.
    + by injection H as <-.
  - intros (m & -> & Hwf & ->). rewrite bind_Ok.
    destruct (m !! "local_versions") as [x|]; simpl.
    + by destruct Hwf as [lv ->].
    + done.
Qed.

(** X4.  The window can be built exactly when the loaded configuration is
    an object whose [local_versions], if any, is an object, and whose entry
    for Atmosphere is missing, falsy or a string.  Any other configuration
    file makes [__init__] raise. *)
Theorem init_succeeds_iff (os0 : osenv) :
  (exists w, init os0 = Ok w) <->
  exists m, load_config os0 = PDict m /\ well_formed m /\
    showable (from_option id PNone (local_versions_of m !! "atmosphere")).
Proof.
  unfold init, update_local_version_label, update_hos_support_label. split.
  - intros [w H].
    apply bind_Ok_inv in H as (w1 & H1 & _).
    apply bind_Ok_inv in H1 as (info & Hinfo & H1).
    injection Hinfo as <-.
    apply bind_Ok_inv in H1 as (local & Hlocal & H1).
    apply bind_Ok_inv in H1 as (s & Hs & _).
    apply get_local_version_spec in Hlocal as (m & Hc & Hwf & ->).
    exists m. split; [exact Hc |]. split; [exact Hwf |].
    unfold showable. simpl key in *.
    destruct (truthy _) eqn:Ht; [| by left].
    right. destruct (from_option id PNone _); try discriminate. eauto.
  - intros (m & Hc & Hwf & Hshow).
    assert (Hlocal : get_local_version_for_project (new_window (load_config os0))
                       "atmosphere"
                     = Ok (from_option id PNone (local_versions_of m !! "atmosphere"))).
    { apply get_local_version_spec. exists m. done. }
    change (get_current_project_info (new_window (load_config os0)))
      with (Ok (A := ProjectInfo)
              {| key := "atmosphere";
                 api_url := "https://api.github.com/repos/Atmosphere-NX/Atmosphere/releases/latest";
                 page_url := "https://github.com/Atmosphere-NX/Atmosphere/releases/latest";
                 hos_support := "Latest supported HOS: 20.5.0 (Basic support)" |}).
    rewrite bind_Ok. simpl key. rewrite Hlocal, bind_Ok.
    destruct Hshow as [Hf | [s Hs]].
    + rewrite Hf. eexists. reflexivity.
    + rewrite Hs. destruct (truthy (PStr s)); eexists; reflexivity.
Qed.

(** X5.  When the window is built, one check is under way and nothing else
    has happened: a single running thread for the Atmosphere endpoint, the
    check button disabled, the status ["Checking..."], no release and no
    dialog yet, the configuration as loaded, and the operating system (the
    file included) untouched. *)
Theorem init_state (os0 : osenv) (w : World) :
  init os0 = Ok w ->
  threads w = [{| th_api_url :=
                    "https://api.github.com/repos/Atmosphere-NX/Atmosphere/releases/latest";
                  th_status := Running;
                  th_finished := false |}] /\
  fetch_thread (win w) = Some 0 /\
  btn_check_enabled (win w) = false /\
  status_value (win w) = "Checking..." /\
  current_project_name (win w) = "Atmosphere" /\
  current_release_info (win w) = None /\
  dialogs (win w) = [] /\
  config (win w) = load_config os0 /\
  os w = os0.
Proof.
  unfold init, update_local_version_label, update_hos_support_label.
  intros H.
  apply bind_Ok_inv in H as (w1 & H1 & H).
  apply bind_Ok_inv in H1 as (info & Hinfo & H1). injection Hinfo as <-.
  apply bind_Ok_inv in H1 as (local & _ & H1).
  apply bind_Ok_inv in H1 as (s & _ & H1). injection H1 as <-.
  apply bind_Ok_inv in H as (w2 & H2 & H).
  apply bind_Ok_inv in H2 as (info & Hinfo & H2). injection Hinfo as <-.
  injection H2 as <-.
  injection H as <-. done.
Qed.

End Startup.

Lemma init_state_witness :
  exists w : World (L := IdLib),
    init (os_with None) = Ok w /\
    fetch_thread (win w) = Some 0 /\
    btn_check_enabled (win w) = false /\
    os w = os_with None.
Proof.
  destruct (init (L := IdLib) (os_with None)) as [w|] eqn:Hinit;
    [| vm_compute in Hinit; discriminate].
  exists w. split; [reflexivity |].
  destruct (init_state (L := IdLib) (os_with None) w Hinit)
    as (_ & Hf & Hb & _ & _ & _ & _ & _ & Hos).
  split; [exact Hf |]. split; [exact Hb | exact Hos].
Defined.

(** ** Invariants of the running program *)

Section Running.

Context {L : PyLib}.

Lemma on_project_changed_labels (w w' : MainWindow) (name : string) :
  on_project_changed w name = Ok w' ->
  latest_value w' = "Unknown" /\ published_value w' = "-" /\
  status_value w' = "Idle" /\
  changelog_edit w' = "No data for this project yet. Press 'Check Now'." /\
  dialogs w' = dialogs w.
Proof.
  unfold on_project_changed, update_local_version_label,
    update_hos_support_label. intros H.
  apply bind_Ok_inv in H as (w1 & H1 & H).
  apply bind_Ok_inv in H1 as (info & _ & H1).
  apply bind_Ok_inv in H1 as (local & _ & H1).
  apply bind_Ok_inv in H1 as (s & _ & H1). injection H1 as <-.
  apply bind_Ok_inv in H as (w2 & H2 & H).
  apply bind_Ok_inv in H2 as (info' & _ & H2). injection H2 as <-.
  injection H as <-. by destruct w.
Qed.

(** X6.  Only the commit touches what is stored: every other event (a
    check, a project change, a thread emitting or ending, a result or an
    error being handled) leaves the configuration in memory, the
    configuration file and the standard output as they were. *)
Theorem config_changes_only_by_commit (w w' : World) (e : event) :
  step w e = Some w' -> e <> ClickSetLocal ->
  config (win w') = config (win w) /\ os w' = os w.
Proof.
  intros Hstep He. apply step_inv in Hstep.
  destruct e as [| | name | i net | i | i]; [| done | | | |].
  - destruct Hstep as [_ Hs].
    by apply start_check_frame in Hs as (? & _ & _ & _ & _ & ?).
  - destruct Hstep as (mw & _ & Hs & ->).
    by apply on_project_changed_thread in Hs as (_ & _ & _ & ? & _).
  - by destruct Hstep as (t & s & _ & _ & _ & ->).
  - by destruct Hstep as (t & _ & _ & _ & ->).
  - destruct Hstep as (t & s & mw & _ & _ & Hs & ->). simpl.
    destruct s as [info | msg].
    + by apply on_fetch_success_frame in Hs as (? & _).
    + subst mw. by destruct (win w).
Qed.

(** X7.  In every state the program reaches the check button is enabled
    exactly when no check is left to handle, and exactly then the window
    refers to no thread. *)
Theorem check_button_tracks_pending (w : World) :
  reachable w ->
  (btn_check_enabled (win w) = true <-> pending w = 0) /\
  (fetch_thread (win w) = None <-> pending w = 0).
Proof.
  intros Hreach.
  pose proof (reachable_one_check w Hreach) as Hone.
  pose proof (reachable_idle_when_handled w Hreach) as Hidle.
  assert (Hzero : pending w = 0 ->
            fetch_thread (win w) = None /\ btn_check_enabled (win w) = true).
  { intros Hp. destruct Hidle as [(i & t & Hi & Ht) | Hidle]; [| done].
    rewrite (proj1 (pending_zero w) Hp i t Hi) in Ht. discriminate. }
  split; split; try (intros Hp; by apply Hzero).
  - intros Hb. apply pending_zero. intros i t Hi.
    destruct (is_pending t) eqn:Ht; [| done].
    destruct (proj1 (Hone i t Hi) Ht) as [_ Hb']. congruence.
  - intros Hf. apply pending_zero. intros i t Hi.
    destruct (is_pending t) eqn:Ht; [| done].
    destruct (proj1 (Hone i t Hi) Ht) as [Hf' _]. congruence.
Qed.

(** X8.  In every state the program reaches, a click on the enabled check
    button starts exactly one fetch: one thread is added, running, for the
    endpoint of the project selected now; it is the only check in flight,
    the button is disabled and the status reads ["Checking..."].  The guard
    of [start_check] never fires on a click. *)
Theorem click_check_starts_one_fetch (w : World) :
  reachable w -> btn_check_enabled (win w) = true ->
  exists (info : ProjectInfo) (w' : World),
    get_current_project_info (win w) = Ok info /\
    step w ClickCheck = Some w' /\
    threads w' = (threads w ++ [{| th_api_url := api_url info;
                                   th_status := Running;
                                   th_finished := false |}])%list /\
    in_flight w' = 1 /\ pending w' = 1 /\
    btn_check_enabled (win w') = false /\
    status_value (win w') = "Checking...".
Proof.
  intros Hreach Hb.
  pose proof (reachable_one_check w Hreach) as Hone.
  pose proof (reachable_idle_when_handled w Hreach) as Hidle.
  destruct (reachable_labels_in_sync w Hreach) as (info & _ & Hinfo & _).
  assert (Hnone : forall i t, threads w !! i = Some t -> is_pending t = false).
  { intros i t Hi. destruct (is_pending t) eqn:Ht; [| done].
    destruct (proj1 (Hone i t Hi) Ht) as [_ Hb']. congruence. }
  assert (Hf : fetch_thread (win w) = None).
  { destruct Hidle as [(i & t & Hi & Ht) | [Hf _]]; [| done].
    rewrite (Hnone i t Hi) in Ht. discriminate. }
  assert (Hstart : exists w', start_check w = Ok w').
  { unfold start_check. rewrite Hf, Hinfo. eexists. reflexivity. }
  destruct Hstart as [w' Hs]. exists info, w'.
  split; [exact Hinfo |]. split; [simpl; by rewrite Hb, Hs |].
  destruct (start_check_cases w w' Hs)
    as [(i & Hfi & _) | (info' & Hinfo' & Hths & _ & Hb' & Hst)]; [congruence |].
  assert (info' = info) as -> by congruence.
  split; [exact Hths |]. unfold in_flight, pending. rewrite Hths.
  rewrite !filter_app_one by done.
  rewrite (filter_none is_pending) by exact Hnone.
  rewrite (filter_none is_fetching).
  - done.
  - intros i t Hi. destruct (is_fetching t) eqn:Ht; [| done].
    apply is_fetching_pending in Ht. rewrite (Hnone i t Hi) in Ht. discriminate.
Qed.

(** X9.  Every thread the program has started fetches the release endpoint
    of a project of the catalog: no other URL is ever requested. *)
Theorem threads_fetch_catalog (w : World) (i : nat) (t : thread) :
  reachable w -> threads w !! i = Some t ->
  exists (name : string) (info : ProjectInfo),
    In (name, info) PROJECTS /\ th_api_url t = api_url info.
Proof.
  intros Hreach Hi.
  exact (proj1 (Forall_lookup _ _) (reachable_catalog w Hreach) i t Hi).
Qed.

(** X10.  In every state the program reaches the selected project is one of
    the catalog, the support label shows its note, and the local-version
    label shows the version stored for it in the configuration in memory,
    or ["Not set"] when there is none (or an empty one). *)
Theorem window_labels_in_sync (w : World) :
  reachable w ->
  exists (info : ProjectInfo) (local : pyval),
    get_current_project_info (win w) = Ok info /\
    hos_value (win w) = hos_support info /\
    get_local_version_for_project (win w) (key info) = Ok local /\
    (truthy local = false -> local_value (win w) = "Not set") /\
    (truthy local = true -> local = PStr (local_value (win w))).
Proof.
  intros Hreach.
  destruct (reachable_labels_in_sync w Hreach)
    as (info & local & Hinfo & Hhos & Hlocal & Hshow).
  exists info, local. repeat split; try done.
  - intros Ht. rewrite Ht in Hshow. by injection Hshow.
  - intros Ht. rewrite Ht in Hshow. destruct local; try discriminate.
    by injection Hshow as ->.
Qed.

(** X11.  The release kept in memory changes by a successful fetch being
    handled and by nothing else: a failed fetch, a project change, a commit
    or a new check leave it as it is, so once a release has been fetched
    the window never goes back to having none. *)
Theorem release_changes_only_by_success (w w' : World) (e : event) :
  step w e = Some w' ->
  current_release_info (win w') = current_release_info (win w) \/
  exists (i : nat) (t : thread) (info : ReleaseInfo),
    e = SignalDelivered i /\ threads w !! i = Some t /\
    th_status t = Emitted (finished_ok info) /\
    current_release_info (win w') = Some info.
Proof.
  intros Hstep. apply step_inv in Hstep.
  destruct e as [| | name | i net | i | i].
  - destruct Hstep as [_ Hs]. left.
    by apply start_check_frame in Hs as (_ & _ & _ & _ & ? & _).
  - destruct Hstep as (mw & os' & Hs & ->). left.
    by apply set_local_to_latest_frame in Hs as (_ & ? & _).
  - destruct Hstep as (mw & _ & Hs & ->). left.
    by apply on_project_changed_thread in Hs as (_ & _ & _ & _ & ?).
  - destruct Hstep as (t & s & _ & _ & _ & ->). by left.
  - destruct Hstep as (t & _ & _ & _ & ->). by left.
  - destruct Hstep as (t & s & mw & Hi & Hst & Hs & ->).
    destruct s as [info | msg].
    + right. exists i, t, info. repeat split; try done. simpl.
      by apply on_fetch_success_frame in Hs as (_ & _ & _ & _ & ?).
    + left. subst mw. simpl. by destruct (win w).
Qed.

(** X12.  In every state the program reaches [open_github_page] does not
    raise and opens the release page of the project selected now, a page of
    the catalog. *)
Theorem open_github_page_of_selection (w : World) :
  reachable w ->
  exists info : ProjectInfo,
    In (current_project_name (win w), info) PROJECTS /\
    open_github_page (win w) = Ok (page_url info).
Proof.
  intros Hreach.
  destruct (reachable_labels_in_sync w Hreach) as (info & _ & Hinfo & _).
  exists info. split.
  - by apply projects_getitem_In.
  - unfold open_github_page. by rewrite Hinfo.
Qed.

(** X13.  Selecting another project while a check is pending does not stop
    the check: the status line goes back to ["Idle"] and the latest-version
    label to ["Unknown"], while the check stays pending and the check
    button stays disabled. *)
Theorem select_project_during_check (w w' : World) (name : string) :
  reachable w -> pending w = 1 ->
  step w (SelectProject name) = Some w' ->
  current_project_name (win w') = name /\
  status_value (win w') = "Idle" /\
  latest_value (win w') = "Unknown" /\
  pending w' = 1 /\ in_flight w' = in_flight w /\
  btn_check_enabled (win w') = false.
Proof.
  intros Hreach Hp Hstep.
  pose proof (reachable_one_check w Hreach) as Hone.
  apply step_inv in Hstep as (mw & _ & Hs & ->).
  destruct (on_project_changed_labels _ _ _ Hs) as (Hl & _ & Hst & _).
  apply on_project_changed_thread in Hs as (_ & Hb & Hn & _).
  repeat split; try done. simpl. rewrite Hb.
  destruct (filter_some is_pending (threads w)) as (i & t & Hi & Ht).
  { unfold pending in Hp. intros Hnil. rewrite Hnil in Hp. discriminate. }
  by destruct (proj1 (Hone i t Hi) Ht).
Qed.

End Running.

(** A run of events from a start of the program ends in a state the program
    reaches. *)
Lemma reachable_run {L : PyLib} (es : list event) (w w' : World) :
  reachable w -> run_events w es = Some w' -> reachable w'.
Proof.
  revert w. induction es as [|e es IH]; simpl; intros w Hw H.
  - by injection H as <-.
  - destruct (step w e) as [w1|] eqn:Hstep; [| done].
    apply (IH w1); [| done]. by eapply reachable_step.
Qed.

Lemma reachable_trace {L : PyLib} (os0 : osenv) (es : list event) (w : World) :
  (w0 ← res_to_option (init os0); run_events w0 es) = Some w -> reachable w.
Proof.
  destruct (init os0) as [w0|] eqn:Hinit; [| done]. simpl.
  apply reachable_run. by eapply reachable_init.
Qed.

Lemma config_changes_only_by_commit_witness :
  exists w w' : World (L := IdLib),
    init (os_with None) = Ok w /\
    step w (ThreadEmits 0 (net_answering (L := IdLib)
                             (PDict {["tag_name" := PStr "1.9.5"]}))) = Some w' /\
    config (win w') = config (win w) /\ os w' = os w.
Proof.
  destruct (init (L := IdLib) (os_with None)) as [w|] eqn:Hinit;
    [| vm_compute in Hinit; discriminate].
  destruct (step w (ThreadEmits 0 (net_answering (L := IdLib)
                      (PDict {["tag_name" := PStr "1.9.5"]})))) as [w'|] eqn:Hstep;
    [| vm_compute in Hinit; injection Hinit as <-;
       vm_compute in Hstep; discriminate].
  exists w, w'. split; [reflexivity |]. split; [exact Hstep |].
  apply (config_changes_only_by_commit w w' _ Hstep). discriminate.
Defined.

Lemma check_button_tracks_pending_witness :
  exists w : World (L := IdLib),
    init (os_with None) = Ok w /\
    (btn_check_enabled (win w) = true <-> pending w = 0).
Proof.
  destruct (init (L := IdLib) (os_with None)) as [w|] eqn:Hinit;
    [| vm_compute in Hinit; discriminate].
  exists w. split; [reflexivity |].
  apply (check_button_tracks_pending w).
  exact (reachable_init (os_with None) w Hinit).
Defined.

Lemma click_check_starts_one_fetch_witness :
  exists w w' : World (L := IdLib),
    (w0 ← res_to_option (init (os_with None));
     run_events w0 [ThreadEmits 0 (net_answering (L := IdLib)
                                     (PDict {["tag_name" := PStr "1.9.5"]}));
                    SignalDelivered 0]) = Some w /\
    step w ClickCheck = Some w' /\ in_flight w' = 1.
Proof.
  destruct (w0 ← res_to_option (init (L := IdLib) (os_with None));
            run_events w0 [ThreadEmits 0 (net_answering (L := IdLib)
                                            (PDict {["tag_name" := PStr "1.9.5"]}));
                           SignalDelivered 0]) as [w|] eqn:Hrun;
    [| vm_compute in Hrun; discriminate].
  assert (Hb : btn_check_enabled (win w) = true).
  { vm_compute in Hrun. injection Hrun as <-. reflexivity. }
  destruct (click_check_starts_one_fetch w (reachable_trace _ _ w Hrun) Hb)
    as (info & w' & _ & Hstep & _ & Hflight & _).
  exists w, w'. split; [reflexivity |]. split; [exact Hstep | exact Hflight].
Defined.

Lemma threads_fetch_catalog_witness :
  exists (w : World (L := IdLib)) (t : thread) (name : string)
         (info : ProjectInfo),
    init (os_with None) = Ok w /\ threads w !! 0 = Some t /\
    In (name, info) PROJECTS /\ th_api_url t = api_url info.
Proof.
  destruct (init (L := IdLib) (os_with None)) as [w|] eqn:Hinit;
    [| vm_compute in Hinit; discriminate].
  destruct (threads w !! 0) as [t|] eqn:Ht;
    [| vm_compute in Hinit; injection Hinit as <-; vm_compute in Ht; discriminate].
  destruct (threads_fetch_catalog w 0 t (reachable_init (os_with None) w Hinit) Ht)
    as (name & info & Hin & Hurl).
  exists w, t, name, info. done.
Defined.

Lemma window_labels_in_sync_witness :
  exists (w : World (L := IdLib)) (info : ProjectInfo),
    init (os_with None) = Ok w /\
    get_current_project_info (win w) = Ok info /\
    hos_value (win w) = hos_support info.
Proof.
  destruct (init (L := IdLib) (os_with None)) as [w|] eqn:Hinit;
    [| vm_compute in Hinit; discriminate].
  destruct (window_labels_in_sync w (reachable_init (os_with None) w Hinit))
    as (info & local & Hinfo & Hhos & _).
  exists w, info. done.
Defined.

Lemma release_changes_only_by_success_witness :
  exists w w' : World (L := IdLib),
    init (os_with None) = Ok w /\
    step w (SelectProject "Hekate") = Some w' /\
    current_release_info (win w') = current_release_info (win w).
Proof.
  destruct (init (L := IdLib) (os_with None)) as [w|] eqn:Hinit;
    [| vm_compute in Hinit; discriminate].
  destruct (step w (SelectProject "Hekate")) as [w'|] eqn:Hstep;
    [| vm_compute in Hinit; injection Hinit as <-;
       vm_compute in Hstep; discriminate].
  exists w, w'. split; [reflexivity |]. split; [exact Hstep |].
  destruct (release_changes_only_by_success w w' _ Hstep)
    as [Hsame | (i & t & info & He & _)]; [exact Hsame | discriminate].
Defined.

Lemma open_github_page_of_selection_witness :
  exists (w : World (L := IdLib)) (info : ProjectInfo),
    (w0 ← res_to_option (init (os_with None));
     run_events w0 [SelectProject "Hekate"]) = Some w /\
    open_github_page (win w) = Ok (page_url info).
Proof.
  destruct (w0 ← res_to_option (init (L := IdLib) (os_with None));
            run_events w0 [SelectProject "Hekate"]) as [w|] eqn:Hrun;
    [| vm_compute in Hrun; discriminate].
  destruct (open_github_page_of_selection w (reachable_trace _ _ w Hrun))
    as (info & _ & Hopen).
  exists w, info. done.
Defined.

Lemma select_project_during_check_witness :
  exists w w' : World (L := IdLib),
    init (os_with None) = Ok w /\
    step w (SelectProject "Hekate") = Some w' /\
    status_value (win w') = "Idle" /\ pending w' = 1.
Proof.
  destruct (init (L := IdLib) (os_with None)) as [w|] eqn:Hinit;
    [| vm_compute in Hinit; discriminate].
  assert (Hp : pending w = 1).
  { vm_compute in Hinit. injection Hinit as <-. reflexivity. }
  destruct (step w (SelectProject "Hekate")) as [w'|] eqn:Hstep;
    [| vm_compute in Hinit; injection Hinit as <-;
       vm_compute in Hstep; discriminate].
  destruct (select_project_during_check w w' "Hekate"
              (reachable_init (os_with None) w Hinit) Hp Hstep)
    as (_ & Hst & _ & Hp' & _).
  exists w, w'. done.
Defined.

(** ** Checks and commits together *)

Lemma str_or_empty_default (s : string) : str_or s "" = s.
Proof. unfold str_or. by destruct (String.eqb_spec s "") as [-> |]. Qed.

Lemma nonempty_append (c : ascii) (a b : string) :
  nonempty (String c a +:+ b) = true.
Proof. reflexivity. Qed.

Lemma join_lines_nonempty (c : ascii) (a : string) (ls : list string) :
  nonempty (join_lines (String c a :: ls)) = true.
Proof. by destruct ls. Qed.

(** X14.  What a successful fetch shows: the latest-version label is the
    tag, or ["Unknown"] for an empty tag; the published label is the
    timestamp, or ["-"] for an empty one; the changelog is the release body
    under a header that always has its tag line, a release line when the
    release has a name, a published line when it has a timestamp other than
    ["-"], and a rule of sixty dashes. *)
Theorem on_fetch_success_display (w w' : MainWindow) (rel_info : ReleaseInfo) :
  on_fetch_success w rel_info = Ok w' ->
  let latest := if String.eqb (tag rel_info) "" then "Unknown" else tag rel_info in
  latest_value w' = latest /\
  published_value w' =
    (if String.eqb (published_at rel_info) "" then "-" else published_at rel_info) /\
  changelog_edit w' =
    (join_lines
       ((if String.eqb (name rel_info) "" then []
         else ["Release: " +:+ name rel_info]) ++
        ["Tag: " +:+ latest] ++
        (if String.eqb (published_at rel_info) ""
            || String.eqb (published_at rel_info) "-"
         then [] else ["Published: " +:+ published_at rel_info]))%list
     +:+ nl +:+ nl +:+ repeat_string "-" 60 +:+ nl +:+ nl)
    +:+ body rel_info.
Proof.
  intros H latest.
  assert (Hshape : exists st ds,
    w' = set_btn_check_enabled true (set_status_value st
           (Build_MainWindow (config w) (current_project_name w) (Some rel_info)
              None (local_value w) (str_or (tag rel_info) "Unknown") (hos_value w)
              (str_or (published_at rel_info) "-") (status_value w)
              ((let header := join_lines
                   ((if nonempty (str_or (name rel_info) "")
                     then ["Release: " +:+ str_or (name rel_info) ""] else []) ++
                    (if nonempty (str_or (tag rel_info) "Unknown")
                     then ["Tag: " +:+ str_or (tag rel_info) "Unknown"] else []) ++
                    (if nonempty (str_or (published_at rel_info) "-")
                        && negb (String.eqb (str_or (published_at rel_info) "-") "-")
                     then ["Published: " +:+ str_or (published_at rel_info) "-"]
                     else []))%list in
                if nonempty header
                then header +:+ nl +:+ nl +:+ repeat_string "-" 60 +:+ nl +:+ nl
                else header) +:+ str_or (body rel_info) "")
              (btn_check_enabled w) ds))).
  { revert H.
    unfold on_fetch_success, get_current_project_info,
      get_local_version_for_project.
    window w.
    destruct (projects_getitem _ _); [rewrite bind_Ok | discriminate].
    destruct (py_get _ _ _ ≫= _); [rewrite bind_Ok | discriminate].
    destruct (negb (truthy _));
      [| destruct (negb (_ || _)); [destruct (str_ne _ _) |]];
      intros [= <-]; eexists _, _; reflexivity. }
  destruct Hshape as (st & ds & ->). simpl.
  rewrite !str_or_empty_default. unfold latest, str_or, nonempty.
  split; [reflexivity |]. split; [reflexivity |].
  f_equal.
  destruct (String.eqb (name rel_info) "") eqn:En;
    destruct (String.eqb (tag rel_info) "") eqn:Et;
    destruct (String.eqb (published_at rel_info) "") eqn:Ep;
    simpl; rewrite ?Et, ?Ep; simpl;
    try destruct (String.eqb (published_at rel_info) "-") eqn:Ed;
    simpl; reflexivity.
Qed.

Section Commits.

Context {L : PyLib}.

(** X15.  After a commit, checking again tells whether anything is newer
    than what was committed: a fetch that brings the committed tag gives
    [UpToDate] and no message box, and one that brings another known tag
    gives [UpdateAvailable] for it. *)
Theorem commit_then_check (w : MainWindow) (os : osenv)
    (rel_info fetched : ReleaseInfo) (info : ProjectInfo)
    (m : gmap string pyval) :
  current_release_info w = Some rel_info ->
  tag rel_info <> "" -> tag rel_info <> "Unknown" ->
  get_current_project_info w = Ok info ->
  config w = PDict m -> well_formed m ->
  tag fetched <> "" -> tag fetched <> "Unknown" ->
  exists w1 os1 w2,
    set_local_to_latest w os = Ok (w1, os1) /\
    on_fetch_success w1 fetched = Ok w2 /\
    (tag fetched = tag rel_info ->
     status_value w2 = status_text UpToDate /\ dialogs w2 = dialogs w) /\
    (tag fetched <> tag rel_info ->
     status_value w2 = status_text (UpdateAvailable (tag fetched))).
Proof.
  intros Hrel Hne Hunk Hinfo Hc Hwf Hfne Hfunk.
  pose proof (set_local_to_latest_cases w os info m Hinfo Hc Hwf) as Hcommit.
  rewrite Hrel in Hcommit.
  rewrite (proj2 (String.eqb_neq _ _) Hne),
          (proj2 (String.eqb_neq _ _) Hunk) in Hcommit.
  simpl in Hcommit.
  eexists _, _. 
  destruct (on_fetch_success_Ok
              (set_status_value "Local version updated."
                 (set_local_value (tag rel_info)
                    (set_config (PDict (<["local_versions" :=
                       PDict (<[key info := PStr (tag rel_info)]>
                                (local_versions_of m))]> m)) w)))
              fetched info (PStr (tag rel_info)))
    as (w2 & Hw2 & _ & _ & _ & Hstatus & Hdialogs).
  { by destruct w. }
  { erewrite get_local_version_lookup.
    - by rewrite lookup_insert_eq.
    - by destruct w.
    - by rewrite lookup_insert_eq. }
  exists w2. split; [exact Hcommit |]. split; [exact Hw2 |].
  rewrite Hstatus, Hdialogs. rewrite (str_or_nonempty _ "Unknown" Hfne).
  unfold truthy.
  rewrite (proj2 (String.eqb_neq _ _) Hne),
          (proj2 (String.eqb_neq _ _) Hfne),
          (proj2 (String.eqb_neq _ _) Hfunk).
  simpl. split.
  - intros ->. rewrite str_ne_same. by destruct w.
  - intros Hdiff. rewrite str_ne_other; [done |]. congruence.
Qed.



(** X17.  A commit on a well-formed configuration always returns, and it
    either warns and stores nothing (no release in memory, or a release
    whose tag is empty or ["Unknown"]) or stores the tag of the release in
    memory, a known one, under the key of the selected project, shows it
    in the local-version label and opens no dialog.  An empty or unknown
    version is never stored. *)
Theorem commit_stores_known_tag_or_nothing (w : MainWindow) (os : osenv)
    (info : ProjectInfo) (m : gmap string pyval) :
  get_current_project_info w = Ok info ->
  config w = PDict m -> well_formed m ->
  exists w' os',
    set_local_to_latest w os = Ok (w', os') /\
    ((config w' = config w /\ os' = os /\
      (exists text, dialogs w' = (dialogs w ++ [warning "Warning" text])%list) /\
      (current_release_info w = None \/
       exists rel_info, current_release_info w = Some rel_info /\
         (tag rel_info = "" \/ tag rel_info = "Unknown"))) \/
     (exists rel_info,
        current_release_info w = Some rel_info /\
        tag rel_info <> "" /\ tag rel_info <> "Unknown" /\
        get_local_version_for_project w' (key info) = Ok (PStr (tag rel_info)) /\
        local_value w' = tag rel_info /\
        dialogs w' = dialogs w /\
        os' = save_config os (config w'))).
Proof.
  intros Hinfo Hc Hwf.
  pose proof (set_local_to_latest_cases w os info m Hinfo Hc Hwf) as H.
  destruct (current_release_info w) as [rel_info|] eqn:Hrel.
  - destruct (String.eqb_spec (tag rel_info) "") as [Ht | Hne]; simpl in H.
    + eexists _, _. split; [exact H |]. left.
      repeat split; [by destruct w | by destruct w; eauto | eauto].
    + destruct (String.eqb_spec (tag rel_info) "Unknown") as [Ht | Hunk].
      * eexists _, _. split; [exact H |]. left.
        repeat split; [by destruct w | by destruct w; eauto | eauto].
      * eexists _, _. split; [exact H |]. right. exists rel_info.
        repeat split; try done; try (by destruct w).
        erewrite get_local_version_lookup.
        -- by rewrite lookup_insert_eq.
        -- by destruct w.
        -- by rewrite lookup_insert_eq.
  - eexists _, _. split; [exact H |]. left.
    repeat split; [by destruct w | by destruct w; eauto | eauto].
Qed.

(** X18.  A failed check does not take the release of the last successful
    one away: the latest-version label reads ["Error"], and a commit still
    stores the tag fetched before. *)
Theorem commit_after_failed_check (w : MainWindow) (os : osenv) (msg : string)
    (rel_info : ReleaseInfo) (info : ProjectInfo) (m : gmap string pyval) :
  current_release_info w = Some rel_info ->
  tag rel_info <> "" -> tag rel_info <> "Unknown" ->
  get_current_project_info w = Ok info ->
  config w = PDict m -> well_formed m ->
  latest_value (on_fetch_error w msg) = "Error" /\
  exists w' os',
    set_local_to_latest (on_fetch_error w msg) os = Ok (w', os') /\
    get_local_version_for_project w' (key info) = Ok (PStr (tag rel_info)) /\
    status_value w' = "Local version updated.".
Proof.
  intros Hrel Hne Hunk Hinfo Hc Hwf. split; [by destruct w |].
  destruct (set_local_to_latest_commits (on_fetch_error w msg) os rel_info info m)
    as (w' & os' & Hs & Hget & _ & Hst); try done; try (by destruct w).
  by exists w', os'.
Qed.

End Commits.

(** X19.  A successful fetch opens a message box exactly when it finds an
    update: one information box with the project, the stored version and
    the fetched tag when the outcome is [UpdateAvailable], and none for the
    three other outcomes. *)
Theorem notify_only_on_update (w : MainWindow) (rel_info : ReleaseInfo)
    (info : ProjectInfo) (local : pyval) :
  get_current_project_info w = Ok info ->
  get_local_version_for_project w (key info) = Ok local ->
  exists w', on_fetch_success w rel_info = Ok w' /\
    ((status_value w' = status_text (UpdateAvailable (tag rel_info)) /\
      dialogs w' = (dialogs w ++ [information "New Release Available"
                      (current_project_name w) local (tag rel_info)])%list) \/
     (dialogs w' = dialogs w /\
      (status_value w' = status_text NoLocalVersion \/
       status_value w' = status_text UpToDate \/
       status_value w' = status_text Indeterminate))).
Proof.
  intros Hinfo Hlocal.
  destruct (on_fetch_success_Ok w rel_info info local Hinfo Hlocal)
    as (w' & Hw' & _ & _ & _ & Hstatus & Hdialogs).
  exists w'. split; [exact Hw' |]. rewrite Hstatus, Hdialogs.
  destruct (truthy local); simpl; [| right; eauto].
  destruct (String.eqb_spec (tag rel_info) "") as [Ht | Hne].
  { rewrite Ht. right. eauto. }
  rewrite (str_or_nonempty _ _ Hne).
  destruct (String.eqb (tag rel_info) "Unknown"); simpl; [right; eauto |].
  rewrite (proj2 (String.eqb_neq _ _) Hne). simpl.
  destruct (str_ne (tag rel_info) local); [left | right]; eauto.
Qed.

Lemma on_fetch_success_display_witness :
  exists w' : MainWindow,
    on_fetch_success (new_window (config_of ∅)) (release_tagged "") = Ok w' /\
    latest_value w' = "Unknown" /\ published_value w' = "-".
Proof.
  destruct (on_fetch_success (new_window (config_of ∅)) (release_tagged ""))
    as [w'|] eqn:H; [| vm_compute in H; discriminate].
  destruct (on_fetch_success_display _ w' _ H) as (Hl & Hp & _).
  exists w'. split; [reflexivity |]. split; [exact Hl | exact Hp].
Defined.

Lemma commit_then_check_witness :
  exists (w1 : MainWindow) (os1 : osenv (L := IdLib)) (w2 : MainWindow),
    set_local_to_latest (window_with_release (config_of ∅) "1.2.0") (os_with None)
      = Ok (w1, os1) /\
    on_fetch_success w1 (release_tagged "1.2.0") = Ok w2 /\
    status_value w2 = status_text UpToDate.
Proof.
  destruct (commit_then_check (L := IdLib)
              (window_with_release (config_of ∅) "1.2.0") (os_with None)
              (release_tagged "1.2.0") (release_tagged "1.2.0")
              atmosphere_info {["local_versions" := PDict ∅]})
    as (w1 & os1 & w2 & Hcommit & Hcheck & Hsame & _);
    try reflexivity; try discriminate.
  - unfold well_formed. rewrite lookup_singleton_eq. eauto.
  - exists w1, os1, w2. split; [exact Hcommit |]. split; [exact Hcheck |].
    by apply Hsame.
Defined.


Lemma commit_stores_known_tag_or_nothing_witness :
  exists (w' : MainWindow) (os' : osenv (L := IdLib)),
    set_local_to_latest (window_with_release (config_of ∅) "Unknown")
      (os_with None) = Ok (w', os') /\
    (config w' = config (window_with_release (config_of ∅) "Unknown") \/
     exists rel_info,
       current_release_info (window_with_release (config_of ∅) "Unknown")
         = Some rel_info /\ tag rel_info <> "Unknown").
Proof.
  destruct (commit_stores_known_tag_or_nothing (L := IdLib)
              (window_with_release (config_of ∅) "Unknown") (os_with None)
              atmosphere_info {["local_versions" := PDict ∅]})
    as (w' & os' & Hcommit & [(Hc & _) | (rel & Hrel & _ & Hunk & _)]).
  - reflexivity.
  - reflexivity.
  - unfold well_formed. rewrite lookup_singleton_eq. eauto.
  - exists w', os'. split; [exact Hcommit |]. by left.
  - exists w', os'. split; [exact Hcommit |]. right. by exists rel.
Defined.

Lemma commit_after_failed_check_witness :
  exists (w' : MainWindow) (os' : osenv (L := IdLib)),
    set_local_to_latest
      (on_fetch_error (window_with_release (config_of ∅) "1.2.0")
         "Network error: timed out") (os_with None) = Ok (w', os') /\
    get_local_version_for_project w' "atmosphere" = Ok (PStr "1.2.0").
Proof.
  destruct (commit_after_failed_check (L := IdLib)
              (window_with_release (config_of ∅) "1.2.0") (os_with None)
              "Network error: timed out" (release_tagged "1.2.0")
              atmosphere_info {["local_versions" := PDict ∅]})
    as (_ & w' & os' & Hcommit & Hget & _);
    try reflexivity; try discriminate.
  - unfold well_formed. rewrite lookup_singleton_eq. eauto.
  - exists w', os'. split; [exact Hcommit | exact Hget].
Defined.

Lemma notify_only_on_update_witness :
  exists w' : MainWindow,
    on_fetch_success (new_window (config_of {["atmosphere" := "1.2.0"]}))
      (release_tagged "1.2.0") = Ok w' /\
    (dialogs w' <> [] ->
     status_value w' = status_text (UpdateAvailable "1.2.0")).
Proof.
  destruct (notify_only_on_update
              (new_window (config_of {["atmosphere" := "1.2.0"]}))
              (release_tagged "1.2.0") atmosphere_info (PStr "1.2.0"))
    as (w' & Hw' & [(Hst & _) | (Hd & _)]).
  - reflexivity.
  - vm_compute. reflexivity.
  - exists w'. split; [exact Hw' |]. intros _. exact Hst.
  - exists w'. split; [exact Hw' |]. intros Hne. by rewrite Hd in Hne.
Defined.

(** ** What can and what cannot end the program *)

Lemma showable_setText (v : pyval) :
  showable v <->
  exists s, setText_arg (if truthy v then v else PStr "Not set") = Ok s.
Proof.
  unfold showable. split.
  - intros [Hf | [s ->]].
    + rewrite Hf. eauto.
    + destruct (truthy (PStr s)); eauto.
  - intros [s H]. destruct (truthy v) eqn:Ht; [| by left].
    right. destruct v; try discriminate. eauto.
Qed.

(** X20.  Selecting a project succeeds exactly when its name is in the
    catalog, the configuration in memory is a well-formed object, and the
    version stored for the project is missing, falsy or a string; in every
    other case [on_project_changed] raises. *)
Theorem on_project_changed_succeeds_iff (w : MainWindow) (name : string) :
  (exists w', on_project_changed w name = Ok w') <->
  exists (info : ProjectInfo) (m : gmap string pyval),
    projects_getitem PROJECTS name = Ok info /\
    config w = PDict m /\ well_formed m /\
    showable (from_option id PNone (local_versions_of m !! key info)).
Proof.
  assert (Hinfo : get_current_project_info (set_current_project_name name w)
                  = projects_getitem PROJECTS name) by (by destruct w).
  assert (Hlocal : forall k,
            get_local_version_for_project (set_current_project_name name w) k
            = get_local_version_for_project w k) by (by destruct w).
  unfold on_project_changed, update_local_version_label. split.
  - intros [w' H].
    apply bind_Ok_inv in H as (w1 & H1 & _).
    apply bind_Ok_inv in H1 as (info & Hi & H1). rewrite Hinfo in Hi.
    apply bind_Ok_inv in H1 as (local & Hl & H1). rewrite Hlocal in Hl.
    apply bind_Ok_inv in H1 as (s & Hs & _).
    apply get_local_version_spec in Hl as (m & Hc & Hwf & ->).
    exists info, m. repeat split; try done. apply showable_setText. eauto.
  - intros (info & m & Hi & Hc & Hwf & Hshow).
    apply showable_setText in Hshow as [s Hs].
    rewrite Hinfo, Hi, bind_Ok, Hlocal.
    rewrite (proj2 (get_local_version_spec w (key info) _)
               (ex_intro _ m (conj Hc (conj Hwf eq_refl)))), bind_Ok.
    rewrite Hs, !bind_Ok. unfold update_hos_support_label.
    assert (get_current_project_info
              (set_local_value s (set_current_project_name name w)) = Ok info)
      as -> by (destruct w; exact Hi).
    rewrite !bind_Ok. eauto.
Qed.

Section Progress.

Context {L : PyLib}.

Lemma reachable_config_well_formed (w : World) :
  reachable w ->
  exists info m, get_current_project_info (win w) = Ok info /\
    config (win w) = PDict m /\ well_formed m.
Proof.
  intros Hreach.
  destruct (reachable_labels_in_sync w Hreach) as (info & local & Hinfo & _ & Hl & _).
  apply get_local_version_spec in Hl as (m & Hc & Hwf & _). eauto.
Qed.

(** X21.  In every state the program reaches the commit button can be
    clicked and its handler returns: the click never ends the program, and
    it leaves the threads as they are. *)
Theorem click_set_local_never_fails (w : World) :
  reachable w ->
  exists w', step w ClickSetLocal = Some w' /\ threads w' = threads w /\
    pending w' = pending w.
Proof.
  intros Hreach.
  destruct (reachable_config_well_formed w Hreach) as (info & m & Hinfo & Hc & Hwf).
  pose proof (set_local_to_latest_cases (win w) (os w) info m Hinfo Hc Hwf) as H.
  simpl. destruct (current_release_info (win w)) as [rel|].
  - destruct (_ || _); simpl in H; rewrite H; eexists; done.
  - rewrite H. eexists. done.
Qed.


End Progress.

Lemma on_project_changed_succeeds_iff_witness :
  (exists w', on_project_changed (new_window (config_of ∅)) "Hekate" = Ok w') /\
  ~ (exists w', on_project_changed (new_window (config_of ∅)) "Fusee" = Ok w').
Proof.
  split.
  - apply on_project_changed_succeeds_iff.
    exists {| key := "hekate";
              api_url := "https://api.github.com/repos/CTCaer/hekate/releases/latest";
              page_url := "https://github.com/CTCaer/hekate/releases/latest";
              hos_support := "Latest supported HOS: 20.5.0" |},
           {["local_versions" := PDict ∅]}.
    split; [reflexivity |]. split; [reflexivity |]. split.
    + unfold well_formed. rewrite lookup_singleton_eq. eauto.
    + by left.
  - intros H. apply on_project_changed_succeeds_iff in H
      as (info & m & Hinfo & _). vm_compute in Hinfo. discriminate.
Defined.

Lemma click_set_local_never_fails_witness :
  exists w w' : World (L := IdLib),
    init (os_with None) = Ok w /\ step w ClickSetLocal = Some w'.
Proof.
  destruct (init (L := IdLib) (os_with None)) as [w|] eqn:Hinit;
    [| vm_compute in Hinit; discriminate].
  destruct (click_set_local_never_fails w (reachable_init (os_with None) w Hinit))
    as (w' & Hstep & _).
  exists w, w'. split; [reflexivity | exact Hstep].
Defined.

